(** * Relational-to-graph migration pipeline (server.py)

    A shallow embedding of the schema-mapping and bulk-load script: the
    configuration of the connection, the column type mapper [infer_type],
    the value serializer [format_val], the node loading loop, the edge
    loading loop and the verification, together with the parts of
    the Python runtime and of SQLAlchemy the script relies on
    ([isinstance] over the SQLAlchemy type hierarchy, [str] of integers and
    decimals, [isoformat] of dates, [str.replace]).

    Strings are byte strings: a Python [str] is represented by its UTF-8
    encoding.  The two characters the serializer cares about, the single
    quote and the backslash, are ASCII and never occur inside a multi-byte
    UTF-8 sequence, so replacing on bytes and on code points agree. *)

From Stdlib Require Import ZArith NArith List String Ascii Bool Lia.
From Stdlib Require Import DecimalString DecimalN DecimalZ DecimalPos DecimalFacts.
Import ListNotations.
Local Open Scope string_scope.

Set Implicit Arguments.

(** ** SQLAlchemy column types *)

(** The classes of [sqlalchemy.types] a reflected column type can be an
    instance of, with their direct base class inside the type hierarchy
    (mixins left out: none of them is tested by the script). *)
Module sqltypes.

Inductive cls : Type :=
| TypeEngine
| Integer | SmallInteger | BigInteger | INTEGER | SMALLINT | BIGINT
| Numeric | Float | Double
| NUMERIC | DECIMAL | FLOAT | REAL | DOUBLE | DOUBLE_PRECISION
| DateTime | Date | Time | Interval
| TIMESTAMP | DATETIME | DATE | TIME
| String_ | Text | Unicode | VARCHAR | CHAR | TEXT
| Boolean | BOOLEAN | LargeBinary | Uuid | JSON | ARRAY | Enum | NullType.

Definition base (c : cls) : option cls :=
  match c with
  | TypeEngine => None
  | Integer => Some TypeEngine
  | SmallInteger | BigInteger | INTEGER => Some Integer
  | SMALLINT => Some SmallInteger
  | BIGINT => Some BigInteger
  | Numeric => Some TypeEngine
  | Float => Some Numeric
  | Double => Some Float
  | NUMERIC | DECIMAL => Some Numeric
  | FLOAT | REAL => Some Float
  | DOUBLE | DOUBLE_PRECISION => Some Double
  | DateTime | Date | Time | Interval => Some TypeEngine
  | TIMESTAMP | DATETIME => Some DateTime
  | DATE => Some Date
  | TIME => Some Time
  | String_ => Some TypeEngine
  | Text | Unicode | VARCHAR | CHAR => Some String_
  | TEXT => Some Text
  | Boolean => Some TypeEngine
  | BOOLEAN => Some Boolean
  | LargeBinary | Uuid | JSON | ARRAY | NullType => Some TypeEngine
  | Enum => Some String_
  end.

Definition eq_dec (c d : cls) : {c = d} + {c <> d}.
Proof. decide equality. Defined.

Definition eqb (c d : cls) : bool := if eq_dec c d then true else false.

(** [issubclass c d], following [base] upwards at most [fuel] times. *)
Fixpoint issubclass_upto (fuel : nat) (c d : cls) : bool :=
  eqb c d ||
  match fuel with
  | O => false
  | S fuel' =>
      match base c with
      | Some b => issubclass_upto fuel' b d
      | None => false
      end
  end.

(** The hierarchy is four levels deep ([DOUBLE] < [Double] < [Float] <
    [Numeric] < [TypeEngine]). *)
Definition depth : nat := 4.

Definition issubclass (c d : cls) : bool := issubclass_upto depth c d.

End sqltypes.

(** [isinstance(col.type, d)]: a column type is represented by its class. *)
Definition isinstance_type (ty d : sqltypes.cls) : bool := sqltypes.issubclass ty d.

(** A reflected column: the attributes of [sqlalchemy.Column] the script
    reads. *)
Record column : Type := Column {
  col_name : string;
  col_type : sqltypes.cls;
  col_primary_key : bool
}.

(** [infer_type] (server.py, lines 40-45). *)
Definition infer_type (col : column) : string :=
  if isinstance_type (col_type col) sqltypes.Integer then "INT"
  else if isinstance_type (col_type col) sqltypes.Float then "DOUBLE"
  else if isinstance_type (col_type col) sqltypes.DateTime then "TIMESTAMP"
  else "STRING".

(** The four primitive types of the graph store the mapper can name. *)
Definition primitive_types : list string := ["INT"; "DOUBLE"; "TIMESTAMP"; "STRING"].

(** The families of declared types as the specification words them:
    integers; floating point and decimals; dates and times; the rest. *)
Inductive family : Type :=
| IntegerFamily | FloatDecimalFamily | DateTimeFamily | OtherFamily.

Definition declared_family (ty : sqltypes.cls) : family :=
  match ty with
  | sqltypes.Integer | sqltypes.SmallInteger | sqltypes.BigInteger
  | sqltypes.INTEGER | sqltypes.SMALLINT | sqltypes.BIGINT => IntegerFamily
  | sqltypes.Numeric | sqltypes.Float | sqltypes.Double
  | sqltypes.NUMERIC | sqltypes.DECIMAL | sqltypes.FLOAT | sqltypes.REAL
  | sqltypes.DOUBLE | sqltypes.DOUBLE_PRECISION => FloatDecimalFamily
  | sqltypes.DateTime | sqltypes.Date | sqltypes.Time
  | sqltypes.TIMESTAMP | sqltypes.DATETIME | sqltypes.DATE | sqltypes.TIME => DateTimeFamily
  | _ => OtherFamily
  end.

(** The primitive the specification expects for a family. *)
Definition family_primitive (f : family) : string :=
  match f with
  | IntegerFamily => "INT"
  | FloatDecimalFamily => "DOUBLE"
  | DateTimeFamily => "TIMESTAMP"
  | OtherFamily => "STRING"
  end.

(** Declared types of the decimal family that are not floating point, and of
    the date/time family that are not timestamps: none is an instance of
    [Integer], [Float] or [DateTime]. *)
Definition exact_decimal_or_plain_date (ty : sqltypes.cls) : bool :=
  match ty with
  | sqltypes.Numeric | sqltypes.NUMERIC | sqltypes.DECIMAL
  | sqltypes.Date | sqltypes.Time | sqltypes.DATE | sqltypes.TIME => true
  | _ => false
  end.

(** ** Python runtime values *)

Definition quote : ascii := "'"%char.
Definition backslash : ascii := "\"%char.

(** Decimal text of a natural number and of an integer ([str(int)]). *)
Definition N_str (n : N) : string := NilEmpty.string_of_uint (N.to_uint n).
Definition Z_str (z : Z) : string := NilZero.string_of_int (Z.to_int z).

Fixpoint repeat_char (c : ascii) (n : nat) : string :=
  match n with
  | O => ""
  | S n' => String c (repeat_char c n')
  end.

(** ["%0wd" % n] for a number without sign. *)
Definition zero_pad (w : nat) (n : N) : string :=
  repeat_char "0" (w - String.length (N_str n)) ++ N_str n.

(** ["%+d" % z]. *)
Definition signed_str (z : Z) : string :=
  (if (z <? 0)%Z then "-" else "+") ++ N_str (Z.abs_N z).

(** [s[:n]] and [s[n:]] for [0 <= n]. *)
Fixpoint take (n : nat) (s : string) : string :=
  match n, s with
  | S n', String c s' => String c (take n' s')
  | _, _ => ""
  end.

Fixpoint drop (n : nat) (s : string) : string :=
  match n, s with
  | S n', String _ s' => drop n' s'
  | _, _ => s
  end.

(** [decimal.Decimal]: a finite number is a sign, a coefficient (the digit
    string [_int] is the decimal text of [dec_coeff], without leading zeros)
    and an exponent; the special values are the infinities and the quiet
    and signaling NaNs with their diagnostic payload. *)
Inductive Decimal : Type :=
| Finite (dec_sign : bool) (dec_coeff : N) (dec_exp : Z)
| Infinity (dec_sign : bool)
| NaN (dec_sign : bool) (signaling : bool) (payload : N).

(** [Decimal.__str__] (scientific string of the General Decimal Arithmetic
    specification, capitals on). *)
Definition Decimal_str (d : Decimal) : string :=
  match d with
  | Infinity sg => (if sg then "-" else "") ++ "Infinity"
  | NaN sg sig p =>
      (if sg then "-" else "") ++ (if sig then "sNaN" else "NaN")
      ++ (if (p =? 0)%N then "" else N_str p)
  | Finite sg coeff exp =>
      let sign := if sg then "-" else "" in
      let _int := N_str coeff in
      let len := Z.of_nat (String.length _int) in
      let leftdigits := (exp + len)%Z in
      let dotplace :=
        if ((exp <=? 0) && (-6 <? leftdigits))%Z then leftdigits else 1%Z in
      let intpart :=
        if (dotplace <=? 0)%Z then "0"
        else if (len <=? dotplace)%Z then _int ++ repeat_char "0" (Z.to_nat (dotplace - len))
        else take (Z.to_nat dotplace) _int in
      let fracpart :=
        if (dotplace <=? 0)%Z then "." ++ repeat_char "0" (Z.to_nat (- dotplace)) ++ _int
        else if (len <=? dotplace)%Z then ""
        else "." ++ drop (Z.to_nat dotplace) _int in
      let exp_text :=
        if (leftdigits =? dotplace)%Z then ""
        else "E" ++ signed_str (leftdigits - dotplace) in
      sign ++ intpart ++ fracpart ++ exp_text
  end.

(** [datetime.date] and [datetime.datetime]; the offset of an aware
    datetime is kept in whole seconds. *)
Record date : Type := Date {
  year : N; month : N; day : N
}.

Record datetime : Type := Datetime {
  dt_date : date;
  hour : N; minute : N; second : N; microsecond : N;
  utcoffset : option Z
}.

Definition date_isoformat (d : date) : string :=
  zero_pad 4 (year d) ++ "-" ++ zero_pad 2 (month d) ++ "-" ++ zero_pad 2 (day d).

Definition format_time (t : datetime) : string :=
  zero_pad 2 (hour t) ++ ":" ++ zero_pad 2 (minute t) ++ ":" ++ zero_pad 2 (second t)
  ++ (if (microsecond t =? 0)%N then "" else "." ++ zero_pad 6 (microsecond t)).

Definition format_offset (off : option Z) : string :=
  match off with
  | None => ""
  | Some o =>
      let a := Z.abs_N o in
      let hh := (a / 3600)%N in
      let mm := ((a mod 3600) / 60)%N in
      let ss := (a mod 60)%N in
      (if (o <? 0)%Z then "-" else "+") ++ zero_pad 2 hh ++ ":" ++ zero_pad 2 mm
      ++ (if (ss =? 0)%N then "" else ":" ++ zero_pad 2 ss)
  end.

(** [datetime.isoformat(sep)]; the default separator is ["T"]. *)
Definition datetime_isoformat_sep (sep : string) (t : datetime) : string :=
  date_isoformat (dt_date t) ++ sep ++ format_time t ++ format_offset (utcoffset t).

Definition datetime_isoformat (t : datetime) : string := datetime_isoformat_sep "T" t.

(** What the model leaves to the Python runtime: binary floating point
    numbers with their [repr], and the objects of any other class (UUIDs,
    byte strings, arrays, JSON documents, times of day, ...) with their
    [str]. *)
Class PyRuntime : Type := {
  pyfloat : Type;
  float_repr : pyfloat -> string;
  pyobject : Type;
  object_str : pyobject -> string
}.

Section Values.
Context {RT : PyRuntime}.

(** The values a result row can hold. *)
Inductive pyval : Type :=
| VNone
| VBool (b : bool)
| VInt (z : Z)
| VFloat (f : pyfloat)
| VDecimal (d : Decimal)
| VDate (d : date)
| VDatetime (t : datetime)
| VStr (s : string)
| VObject (o : pyobject).

(** [isinstance(val, bool)]. *)
Definition isinstance_bool (v : pyval) : bool :=
  match v with VBool _ => true | _ => false end.

(** [isinstance(val, (int, float, Decimal))]: [bool] is a subclass of [int]. *)
Definition isinstance_number (v : pyval) : bool :=
  match v with
  | VBool _ | VInt _ | VFloat _ | VDecimal _ => true
  | _ => false
  end.

(** [isinstance(val, (date, datetime))]: [datetime] is a subclass of [date]. *)
Definition isinstance_date (v : pyval) : bool :=
  match v with VDate _ | VDatetime _ => true | _ => false end.

(** [val.isoformat()]; only dates and datetimes have the method. *)
Definition isoformat (v : pyval) : string :=
  match v with
  | VDate d => date_isoformat d
  | VDatetime t => datetime_isoformat t
  | _ => ""
  end.

(** [str(val)]. *)
Definition py_str (v : pyval) : string :=
  match v with
  | VNone => "None"
  | VBool b => if b then "True" else "False"
  | VInt z => Z_str z
  | VFloat f => float_repr f
  | VDecimal d => Decimal_str d
  | VDate d => date_isoformat d
  | VDatetime t => datetime_isoformat_sep " " t
  | VStr s => s
  | VObject o => object_str o
  end.

End Values.

(** [str.replace(old, new)]: the occurrences of [old] are found from left
    to right and do not overlap.  [skip] counts the characters of a match
    still to be dropped. *)
Fixpoint replace_from (skip : nat) (old new s : string) : string :=
  match s with
  | "" => ""
  | String c s' =>
      match skip with
      | S k => replace_from k old new s'
      | O =>
          if String.prefix old s
          then new ++ replace_from (String.length old - 1) old new s'
          else String c (replace_from 0 old new s')
      end
  end.

Fixpoint intersperse (new s : string) : string :=
  match s with
  | "" => new
  | String c s' => new ++ String c (intersperse new s')
  end.

Definition str_replace (s old new : string) : string :=
  match old with
  | "" => intersperse new s
  | _ => replace_from 0 old new s
  end.

Section Serializer.
Context {RT : PyRuntime}.

(** [val is None]. *)
Definition is_None (v : pyval) : bool :=
  match v with VNone => true | _ => false end.

(** The truth value of [val].  The serializer takes it of a [bool] only;
    for a float and for an object of another class, whose truth the model
    does not know, [true] stands in. *)
Definition truth (v : pyval) : bool :=
  match v with
  | VNone => false
  | VBool b => b
  | VInt z => negb (z =? 0)%Z
  | VDecimal (Finite _ c _) => negb (c =? 0)%N
  | VStr s => negb (s =? "")
  | _ => true
  end.

(** [format_val] (server.py, lines 47-53). *)
Definition format_val (val : pyval) : string :=
  if is_None val then "null"
  else if isinstance_bool val then (if truth val then "true" else "false")
  else if isinstance_number val then py_str val
  else if isinstance_date val then "'" ++ isoformat val ++ "'"
  else
    let s := str_replace (py_str val) "'" "\'" in
    "'" ++ s ++ "'".

End Serializer.

(** ** Reflected schema and source database *)

(** A reflected table ([sqlalchemy.Table]): [tbl_primary_key] lists the
    names of [tbl.primary_key.columns], in the order of the constraint;
    [col_primary_key] is the flag each column carries. *)
Record table : Type := Table {
  tbl_schema : option string;
  tbl_name : string;
  tbl_columns : list column;
  tbl_primary_key : list string
}.

(** An entry of [inspector.get_foreign_keys(name, schema)]. *)
Record foreign_key : Type := ForeignKey {
  constrained_columns : list string;
  referred_table : string;
  referred_columns : list string
}.

(** [tbl.columns.keys()]. *)
Definition column_keys (tbl : table) : list string := map col_name (tbl_columns tbl).

(** [[c.name for c in tbl.columns if c.primary_key]]. *)
Definition pk_names (tbl : table) : list string :=
  map col_name (filter col_primary_key (tbl_columns tbl)).

(** [tbl.columns[key]], [None] where Python raises [KeyError]. *)
Definition find_column (tbl : table) (key : string) : option column :=
  find (fun c => col_name c =? key) (tbl_columns tbl).

(** Position of the first column named [key] among the table's columns. *)
Fixpoint position (key : string) (cols : list column) : nat :=
  match cols with
  | [] => O
  | c :: rest => if col_name c =? key then O else S (position key rest)
  end.

(** The statements handed to [conn.execute], kept structured; [render]
    gives the text the script builds for each. *)
Inductive statement : Type :=
| CreateNodeTable (name : string) (defs : list string)
| CreateNode (name : string) (props : list (string * string))
| CreateRelTable (edge parent child : string)
| MatchCreate (parent child parent_pk parent_literal child_pk child_literal edge : string).

(** [sep.join(parts)]. *)
Fixpoint join (sep : string) (parts : list string) : string :=
  match parts with
  | [] => ""
  | [p] => p
  | p :: rest => p ++ sep ++ join sep rest
  end.

Definition render_prop (p : string * string) : string := fst p ++ ": " ++ snd p.

Definition render (q : statement) : string :=
  match q with
  | CreateNodeTable name defs =>
      "CREATE NODE TABLE IF NOT EXISTS " ++ name ++ " (" ++ join ", " defs ++ ");"
  | CreateNode name props =>
      "CREATE (n:" ++ name ++ " {" ++ join ", " (map render_prop props) ++ "});"
  | CreateRelTable edge parent child =>
      "CREATE REL TABLE IF NOT EXISTS " ++ edge ++ "(FROM " ++ parent ++ " TO " ++ child ++ ");"
  | MatchCreate parent child parent_pk parent_literal child_pk child_literal edge =>
      "MATCH (a:" ++ parent ++ "), (b:" ++ child ++ ") "
      ++ "WHERE a." ++ parent_pk ++ " = " ++ parent_literal ++ " "
      ++ "  AND b." ++ child_pk ++ "  = " ++ child_literal ++ " "
      ++ "CREATE (a)-[:" ++ edge ++ "]->(b);"
  end.

(** The progress lines the loaders print, without their layout. *)
Inductive message : Type :=
| Skipping (name : string) (pk_count : nat)
| CreatedNodeTable (name : string)
| RowCount (rows : nat) (name : string)
| InsertedNodes (rows : nat) (name : string)
| InsertedRelationships (pairs : nat) (parent child : string).

(** What a run does, in order: lines printed and statements executed on
    the graph store.  The store is a recorder: it accepts every statement. *)
Inductive event : Type :=
| Printed (m : message)
| Execute (q : statement).

Definition is_node_op (e : event) : bool :=
  match e with
  | Execute (CreateNodeTable _ _) | Execute (CreateNode _ _) => true
  | _ => false
  end.

Definition is_edge_op (e : event) : bool :=
  match e with
  | Execute (CreateRelTable _ _ _) | Execute (MatchCreate _ _ _ _ _ _ _) => true
  | _ => false
  end.

(** The node type a node operation names. *)
Definition node_op_name (e : event) : option string :=
  match e with
  | Execute (CreateNodeTable name _) | Execute (CreateNode name _) => Some name
  | _ => None
  end.

(** The parent and child node types an edge operation names. *)
Definition edge_op_ends (e : event) : option (string * string) :=
  match e with
  | Execute (CreateRelTable _ parent child)
  | Execute (MatchCreate parent child _ _ _ _ _) => Some (parent, child)
  | _ => None
  end.

(** ** Computations: a trace of events and a result or an exception *)

Inductive exn : Type := IndexError | KeyError.

Inductive outcome (A : Type) : Type :=
| Done (a : A)
| Raised (e : exn).
Arguments Done {A} a.
Arguments Raised {A} e.

Definition M (A : Type) : Type := (list event * outcome A)%type.

Definition ret {A : Type} (a : A) : M A := ([], Done a).

Definition bind {A B : Type} (m : M A) (k : A -> M B) : M B :=
  match m with
  | (tr, Done a) => let (tr', r) := k a in ((tr ++ tr')%list, r)
  | (tr, Raised e) => (tr, Raised e)
  end.

Definition raise {A : Type} (e : exn) : M A := ([], Raised e).
Definition print (m : message) : M unit := ([Printed m], Done tt).
Definition execute (q : statement) : M unit := ([Execute q], Done tt).

Declare Scope py_scope.
Delimit Scope py_scope with py.
Notation "x <- m ;; k" := (bind m (fun x => k))
  (at level 61, m at next level, right associativity) : py_scope.
Notation "m ;; k" := (bind m (fun _ => k))
  (at level 61, right associativity) : py_scope.
Local Open Scope py_scope.

(** [for x in xs: body(x)]; an exception leaves the loop. *)
Fixpoint for_each {A : Type} (xs : list A) (body : A -> M unit) : M unit :=
  match xs with
  | [] => ret tt
  | x :: rest => body x ;; for_each rest body
  end.

(** [l[0]]. *)
Definition first_item {A : Type} (l : list A) : M A :=
  match l with
  | x :: _ => ret x
  | [] => raise IndexError
  end.

(** [tbl.columns[key]] and [tbl.c[key]]. *)
Definition get_column (tbl : table) (key : string) : M column :=
  match find_column tbl key with
  | Some c => ret c
  | None => raise KeyError
  end.

Definition trace {A : Type} (m : M A) : list event := fst m.
Definition result {A : Type} (m : M A) : outcome A := snd m.

(** ** The loaders *)

Section Pipeline.
Context {RT : PyRuntime}.

(** The relational source: the rows of each table, every row holding one
    value per column in the order of the table's columns, and the foreign
    keys the inspector reports for a table name and schema. *)
Record source : Type := Source {
  table_rows : string -> list (list pyval);
  get_foreign_keys : string -> option string -> list foreign_key
}.

(** The value a row holds for a column of its table. *)
Definition cell (tbl : table) (row : list pyval) (c : column) : pyval :=
  nth (position (col_name c) (tbl_columns tbl)) row VNone.

(** [session.execute(select(tbl)).fetchall()]: one result row per stored
    row, with the values of all columns of the table. *)
Definition select_table (src : source) (tbl : table) : list (list pyval) :=
  map (fun row => map (cell tbl row) (tbl_columns tbl)) (table_rows src (tbl_name tbl)).

(** [session.execute(select(c1, c2)).fetchall()] on two columns of one
    table: one pair per stored row. *)
Definition select_pairs (src : source) (tbl : table) (c1 c2 : column) : list (pyval * pyval) :=
  map (fun row => (cell tbl row c1, cell tbl row c2)) (table_rows src (tbl_name tbl)).

(** One entry of [defs] (server.py, lines 67-70). *)
Definition column_def (col : column) : string :=
  let d := col_name col ++ " " ++ infer_type col in
  if col_primary_key col then d ++ " PRIMARY KEY" else d.

(** [zip(tbl.columns.keys(), row)] with each value serialized. *)
Definition node_props (tbl : table) (row : list pyval) : list (string * string) :=
  map (fun cv => (fst cv, format_val (snd cv))) (combine (column_keys tbl) row).

(** Body of the node loop (server.py, lines 58-81). *)
Definition load_node_table (src : source) (tbl : table) : M unit :=
  let name := tbl_name tbl in
  let pk_cols := pk_names tbl in
  if negb (List.length pk_cols =? 1)%nat then
    print (Skipping name (List.length pk_cols))
  else
    let defs := map column_def (tbl_columns tbl) in
    execute (CreateNodeTable name defs) ;;
    print (CreatedNodeTable name) ;;
    let rows := select_table src tbl in
    print (RowCount (List.length rows) name) ;;
    for_each rows (fun row => execute (CreateNode name (node_props tbl row))) ;;
    print (InsertedNodes (List.length rows) name).

(** 4) Bulk-load nodes. *)
Definition load_nodes (src : source) (tables : list table) : M unit :=
  for_each tables (load_node_table src).

(** What lines 91-94 read off a foreign key of [tbl]. *)
Record edge_plan : Type := EdgePlan {
  plan_parent : string;
  plan_fk_col : column;
  plan_parent_pk : string;
  plan_child_pk : string
}.

Definition plan_edge (tbl : table) (fk : foreign_key) : M edge_plan :=
  let parent := referred_table fk in
  c0 <- first_item (constrained_columns fk) ;;
  fk_col <- get_column tbl c0 ;;
  parent_pk <- first_item (referred_columns fk) ;;
  child_pk <- first_item (tbl_primary_key tbl) ;;
  ret (EdgePlan parent fk_col parent_pk child_pk).

(** Lines 96-114 for a planned edge. *)
Definition load_planned_edge (src : source) (tbl : table) (p : edge_plan) : M unit :=
  let name := tbl_name tbl in
  let parent := plan_parent p in
  child_pk_col <- get_column tbl (plan_child_pk p) ;;
  let pairs := select_pairs src tbl (plan_fk_col p) child_pk_col in
  match pairs with
  | [] => ret tt
  | _ =>
      let edge := parent ++ "_" ++ name ++ "_edge" in
      execute (CreateRelTable edge parent name) ;;
      for_each pairs (fun ids =>
        execute (MatchCreate parent name
                   (plan_parent_pk p) (format_val (fst ids))
                   (plan_child_pk p) (format_val (snd ids)) edge)) ;;
      print (InsertedRelationships (List.length pairs) parent name)
  end.

(** Body of the loop over the foreign keys of a table (lines 91-114). *)
Definition load_edge (src : source) (tbl : table) (fk : foreign_key) : M unit :=
  p <- plan_edge tbl fk ;;
  load_planned_edge src tbl p.

(** Body of the edge loop (server.py, lines 87-114). *)
Definition load_edge_table (src : source) (tbl : table) : M unit :=
  let schema := tbl_schema tbl in
  let name := tbl_name tbl in
  pk_col <- first_item (pk_names tbl) ;;
  for_each (get_foreign_keys src name schema) (load_edge src tbl).

(** 5) Bulk-load edges. *)
Definition load_edges (src : source) (tables : list table) : M unit :=
  for_each tables (load_edge_table src).

(** The two loading phases in the order of the script.  The verification
    that follows them only reads the store back, and the cleanup closes the
    connections. *)
Definition migrate (src : source) (tables : list table) : M unit :=
  load_nodes src tables ;; load_edges src tables.

End Pipeline.

(** ** Notions the properties are stated with *)

(** Prefixing every single quote with a backslash, character by character. *)
Fixpoint escape_quotes (s : string) : string :=
  match s with
  | "" => ""
  | String c rest =>
      if Ascii.eqb c quote
      then String backslash (String quote (escape_quotes rest))
      else String c (escape_quotes rest)
  end.

Fixpoint contains (c : ascii) (s : string) : bool :=
  match s with
  | "" => false
  | String a rest => Ascii.eqb a c || contains c rest
  end.

(** Scanning the body of a quoted literal, after its opening quote: a
    backslash escapes the character that follows it, and the first quote
    that is not escaped closes the literal; the literal is closed when that
    quote is the last character of the text. *)
Fixpoint closes_at_end (body : string) : bool :=
  match body with
  | "" => false
  | String c rest =>
      if Ascii.eqb c quote then
        match rest with "" => true | _ => false end
      else if Ascii.eqb c backslash then
        match rest with
        | "" => false
        | String _ rest' => closes_at_end rest'
        end
      else closes_at_end rest
  end.

(** A literal of the query language: either it opens with a quote and is
    closed by its last character, or it holds no quote at all. *)
Definition closed_literal (s : string) : bool :=
  match s with
  | String c body => if Ascii.eqb c quote then closes_at_end body else negb (contains quote s)
  | "" => true
  end.

Definition is_digit (c : ascii) : bool :=
  match c with
  | "0" | "1" | "2" | "3" | "4" | "5" | "6" | "7" | "8" | "9" => true
  | _ => false
  end%char.

Fixpoint all_digits (s : string) : bool :=
  match s with
  | "" => true
  | String c rest => is_digit c && all_digits rest
  end.

(** The longest prefix of digits, and what follows it. *)
Fixpoint span_digits (s : string) : string * string :=
  match s with
  | "" => ("", "")
  | String c rest =>
      if is_digit c
      then let (ds, tail) := span_digits rest in (String c ds, tail)
      else ("", s)
  end.

(** The number a string of digits denotes. *)
Definition digits_value (s : string) : option N :=
  option_map N.of_uint (NilEmpty.uint_of_string s).

(** An exponent: an optional sign and at least one digit. *)
Definition parse_exponent (s : string) : option Z :=
  match s with
  | "" => None
  | String c ds =>
      if Ascii.eqb c "+" then
        match ds with "" => None | _ => option_map Z.of_N (digits_value ds) end
      else if Ascii.eqb c "-" then
        match ds with "" => None | _ => option_map (fun n => (- Z.of_N n)%Z) (digits_value ds) end
      else option_map Z.of_N (digits_value s)
  end.

(** Reading a decimal numeral back: an optional sign, an integer part, an
    optional fraction, an optional exponent, with at least one digit before
    the exponent.  The coefficient is the number the digits of the integer
    part and of the fraction denote together, and the exponent is the
    written one less the number of fraction digits. *)
Definition parse_number (sg : bool) (s1 : string) : option Decimal :=
  let (ip, s2) := span_digits s1 in
  let (fp, s3) :=
    match s2 with
    | String c rest => if Ascii.eqb c "." then span_digits rest else ("", s2)
    | "" => ("", s2)
    end in
  if (ip ++ fp =? "") then None
  else
    match digits_value (ip ++ fp), s3 with
    | Some coeff, "" => Some (Finite sg coeff (- Z.of_nat (String.length fp)))
    | Some coeff, String c e =>
        if Ascii.eqb c "E" || Ascii.eqb c "e" then
          option_map (fun x => Finite sg coeff (x - Z.of_nat (String.length fp))) (parse_exponent e)
        else None
    | None, _ => None
    end.

Definition parse_decimal (s : string) : option Decimal :=
  match s with
  | String c rest =>
      if Ascii.eqb c "-" then parse_number true rest
      else if Ascii.eqb c "+" then parse_number false rest
      else parse_number false s
  | "" => None
  end.

(** The exponent part of a numeral, when there is one. *)
Definition exp_text (x : option Z) : string :=
  match x with
  | Some z => "E" ++ signed_str z
  | None => ""
  end.

Definition exp_value (x : option Z) : Z :=
  match x with Some z => z | None => 0%Z end.

(** The text of a numeral from its parts: sign, integer part, fraction
    (when [dot] is set) and exponent. *)
Definition numeral (sg : bool) (ip : string) (dot : bool) (fp : string) (x : option Z) : string :=
  (if sg then "-" else "") ++ ip ++ (if dot then "." ++ fp else "") ++ exp_text x.

(** When [Decimal.__str__] writes a finite number without an exponent: the
    exponent is not positive and there are fewer than six zeros between the
    decimal point and the first digit of the coefficient. *)
Definition plain_notation (c : N) (e : Z) : bool :=
  ((e <=? 0) && (-6 <? e + Z.of_nat (String.length (N_str c))))%Z.

(** What follows a run of digits: the end of the text, or a character that
    is not a digit. *)
Definition digit_free_head (s : string) : Prop :=
  match s with
  | "" => True
  | String c _ => is_digit c = false
  end.

(** The characters of a numeral or of an ISO-8601 text besides digits. *)
Definition is_punctuation (c : ascii) : bool :=
  match c with
  | "-" | "+" | "." | ":" | "E" | "T" | " " => true
  | _ => false
  end%char.

Fixpoint plain_text (s : string) : bool :=
  match s with
  | "" => true
  | String c rest => (is_digit c || is_punctuation c) && plain_text rest
  end.

(** The primary-key constraint and the flags of the columns agree. *)
Definition wf_table (tbl : table) : bool :=
  (List.length (tbl_primary_key tbl) =? List.length (pk_names tbl))%nat
  && forallb (fun k => existsb (String.eqb k) (pk_names tbl)) (tbl_primary_key tbl).

(** A foreign key constrains at least one column, a column of its table,
    and refers to at least one column. *)
Definition wf_foreign_key (tbl : table) (fk : foreign_key) : bool :=
  match constrained_columns fk, referred_columns fk with
  | c :: _, _ :: _ => existsb (String.eqb c) (column_keys tbl)
  | _, _ => false
  end.

Section Reflected.
Context {RT : PyRuntime}.

(** The string conversion of a value that is quoted by escaping holds no
    backslash. *)
Definition backslash_free (val : pyval) : bool :=
  match val with
  | VStr s => negb (contains backslash s)
  | VObject o => negb (contains backslash (object_str o))
  | _ => true
  end.

(** What reflection guarantees of the tables and of their foreign keys. *)
Definition schema_ok (src : source) (tables : list table) : bool :=
  forallb (fun tbl =>
    wf_table tbl
    && forallb (wf_foreign_key tbl) (get_foreign_keys src (tbl_name tbl) (tbl_schema tbl)))
    tables.

(** The events of loading one table as nodes: the node type, then one
    node per stored row, its properties being, column after column, the
    column's name with the literal of the row's value for that column. *)
Definition node_of_row (tbl : table) (row : list pyval) : event :=
  Execute (CreateNode (tbl_name tbl)
             (map (fun c => (col_name c, format_val (cell tbl row c))) (tbl_columns tbl))).

Definition node_table_events (src : source) (tbl : table) : list event :=
  let name := tbl_name tbl in
  let stored := table_rows src name in
  [Execute (CreateNodeTable name (map column_def (tbl_columns tbl)));
   Printed (CreatedNodeTable name);
   Printed (RowCount (List.length stored) name)]
  ++ map (node_of_row tbl) stored
  ++ [Printed (InsertedNodes (List.length stored) name)].

(** The events of loading one foreign key as edges: the relationship type
    named after parent and child, from parent to child, then one
    relationship per stored row of the child table, matching the parent on
    the referred column by the row's foreign-key value and the child on its
    primary-key column by the row's primary-key value. *)
Definition edge_of_row (tbl : table) (parent : string) (fk_col : column)
    (parent_pk : string) (pk_col : column) (row : list pyval) : event :=
  Execute (MatchCreate parent (tbl_name tbl)
             parent_pk (format_val (cell tbl row fk_col))
             (col_name pk_col) (format_val (cell tbl row pk_col))
             (parent ++ "_" ++ tbl_name tbl ++ "_edge")).

Definition edge_events (src : source) (tbl : table) (parent : string) (fk_col : column)
    (parent_pk : string) (pk_col : column) : list event :=
  let name := tbl_name tbl in
  let stored := table_rows src name in
  [Execute (CreateRelTable (parent ++ "_" ++ name ++ "_edge") parent name)]
  ++ map (edge_of_row tbl parent fk_col parent_pk pk_col) stored
  ++ [Printed (InsertedRelationships (List.length stored) parent name)].

End Reflected.

(** ** Further notions: reading literals back, and their layout *)

(** Reading an integer back. *)
Definition parse_int (s : string) : option Z :=
  option_map Z.of_int (NilZero.int_of_string s).

(** [sys.int_info.default_max_str_digits]: from CPython 3.11 on, [str] of
    an integer with more decimal digits than this raises [ValueError]
    instead of returning. *)
Definition max_str_digits : nat := 4300.

(** The number of decimal digits of an integer. *)
Definition str_digits (z : Z) : nat := String.length (N_str (Z.abs_N z)).

(** A field of exactly [w] decimal digits, read as a number. *)
Definition fixed_field (w : nat) (s : string) : option N :=
  if (String.length s =? w)%nat && all_digits s then digits_value s else None.

(** The ranges [datetime.date] and [datetime.datetime] enforce on their
    fields when a value is built (the length of the month apart); the
    offset of an aware datetime is strictly between minus and plus one
    day. *)
Definition valid_date (d : date) : bool :=
  ((1 <=? year d) && (year d <=? 9999) && (1 <=? month d) && (month d <=? 12)
   && (1 <=? day d) && (day d <=? 31))%N.

Definition valid_datetime (t : datetime) : bool :=
  valid_date (dt_date t)
  && ((hour t <? 24) && (minute t <? 60) && (second t <? 60)
      && (microsecond t <? 1000000))%N
  && match utcoffset t with
     | None => true
     | Some o => ((-86400 <? o) && (o <? 86400))%Z
     end.

(** The fraction of a second in ISO-8601 text: absent, or a point and the
    six digits of the microseconds. *)
Definition fraction_layout (us : N) (s : string) : Prop :=
  if (us =? 0)%N then s = ""
  else exists f, s = "." ++ f /\ fixed_field 6 f = Some us.

(** The offset in ISO-8601 text: absent, or a sign, two digits of hours, a
    colon, two digits of minutes and, when they are not zero, a colon and
    two digits of seconds. *)
Definition offset_layout (off : option Z) (s : string) : Prop :=
  match off with
  | None => s = ""
  | Some o =>
      exists (hh mm tail : string) (H M S : N),
        s = (if (o <? 0)%Z then "-" else "+") ++ hh ++ ":" ++ mm ++ tail
        /\ fixed_field 2 hh = Some H /\ fixed_field 2 mm = Some M
        /\ (H < 24)%N /\ (M < 60)%N /\ (S < 60)%N
        /\ (if (S =? 0)%N then tail = ""
            else exists ss, tail = ":" ++ ss /\ fixed_field 2 ss = Some S)
        /\ Z.abs o = Z.of_N (H * 3600 + M * 60 + S)
  end.

(** The text read backwards. *)
Fixpoint string_rev (s : string) : string :=
  match s with
  | "" => ""
  | String c rest => string_rev rest ++ String c ""
  end.

(** [s.endswith(suffix)]. *)
Definition ends_with (suffix s : string) : bool :=
  String.prefix (string_rev suffix) (string_rev s).

(** [edge] (server.py, line 100). *)
Definition rel_table_name (parent child : string) : string :=
  parent ++ "_" ++ child ++ "_edge".

(** The table has no column flagged as primary key. *)
Definition has_no_key (tbl : table) : bool :=
  match pk_names tbl with [] => true | _ => false end.

(** ** A store that may refuse statements *)

(** [conn.execute] raises when the store refuses a statement, and nothing
    in the script catches the exception: the run ends there.  The script
    never reads what the store answers while loading, so up to that
    statement the run is the recorded one.  [accepts history q] tells
    whether the store, having executed the statements of [history],
    executes [q]. *)
Inductive run_end : Type :=
| EndsNormally
| ScriptRaises (e : exn)
| StoreRefuses (q : statement).

Fixpoint first_refused (accepts : list statement -> statement -> bool)
    (history : list statement) (tr : list event) : option statement :=
  match tr with
  | [] => None
  | Printed _ :: rest => first_refused accepts history rest
  | Execute q :: rest =>
      if accepts history q then first_refused accepts (history ++ [q]) rest
      else Some q
  end.

(** The events of a run against such a store: the recorded ones before the
    first refused statement. *)
Fixpoint issued (accepts : list statement -> statement -> bool)
    (history : list statement) (tr : list event) : list event :=
  match tr with
  | [] => []
  | Printed m :: rest => Printed m :: issued accepts history rest
  | Execute q :: rest =>
      if accepts history q then Execute q :: issued accepts (history ++ [q]) rest
      else []
  end.

Definition run_end_on (accepts : list statement -> statement -> bool) (m : M unit) : run_end :=
  match first_refused accepts [] (trace m) with
  | Some q => StoreRefuses q
  | None =>
      match result m with
      | Done _ => EndsNormally
      | Raised e => ScriptRaises e
      end
  end.

(** A store, empty at the start, that checks the names a statement refers
    to: a node needs its node table, a relationship table needs both of its
    node tables, and a relationship needs the two node tables and the
    relationship table. *)
Definition declares_node (name : string) (q : statement) : bool :=
  match q with
  | CreateNodeTable n _ => n =? name
  | _ => false
  end.

Definition declares_rel (name : string) (q : statement) : bool :=
  match q with
  | CreateRelTable n _ _ => n =? name
  | _ => false
  end.

Definition catalog_store (history : list statement) (q : statement) : bool :=
  match q with
  | CreateNodeTable _ _ => true
  | CreateNode name _ => existsb (declares_node name) history
  | CreateRelTable _ parent child =>
      existsb (declares_node parent) history && existsb (declares_node child) history
  | MatchCreate parent child _ _ _ _ edge =>
      existsb (declares_node parent) history && existsb (declares_node child) history
      && existsb (declares_rel edge) history
  end.

(** The test of [infer_type] in the opposite order. *)
Definition infer_type_reversed (col : column) : string :=
  if isinstance_type (col_type col) sqltypes.DateTime then "TIMESTAMP"
  else if isinstance_type (col_type col) sqltypes.Float then "DOUBLE"
  else if isinstance_type (col_type col) sqltypes.Integer then "INT"
  else "STRING".

(** ** Configuration *)

(** [os.getenv(name, default)] on an environment of name/value pairs. *)
Definition getenv (env : list (string * string)) (name default : string) : string :=
  match find (fun kv => fst kv =? name) env with
  | Some kv => snd kv
  | None => default
  end.

Definition POSTGRES_USER (env : list (string * string)) : string :=
  getenv env "POSTGRES_USER" "postgres".
Definition POSTGRES_PASSWORD (env : list (string * string)) : string :=
  getenv env "POSTGRES_PASSWORD" "postgres123".
Definition POSTGRES_HOST (env : list (string * string)) : string :=
  getenv env "POSTGRES_HOST" "postgres-db-v1.cbkaui220ofp.us-east-2.rds.amazonaws.com".
Definition POSTGRES_PORT (env : list (string * string)) : string :=
  getenv env "POSTGRES_PORT" "5432".
Definition POSTGRES_DB (env : list (string * string)) : string :=
  getenv env "POSTGRES_DB" "call_transcripts".

(** [PG_URL] (server.py, lines 14-17). *)
Definition PG_URL (env : list (string * string)) : string :=
  ("postgresql+psycopg2://" ++ POSTGRES_USER env ++ ":" ++ POSTGRES_PASSWORD env)
  ++ ("@" ++ POSTGRES_HOST env ++ ":" ++ POSTGRES_PORT env ++ "/" ++ POSTGRES_DB env).

Section FurtherNotions.
Context {RT : PyRuntime}.

(** The kinds of value the serializer writes without quotes, floats
    apart. *)
Definition unquoted_kind (v : pyval) : bool :=
  match v with
  | VNone | VBool _ | VInt _ | VDecimal _ => true
  | _ => false
  end.

(** Every node type is declared with one key marker. *)
Definition one_key_marker (ev : event) : Prop :=
  match ev with
  | Execute (CreateNodeTable _ defs) =>
      List.length (filter (ends_with " PRIMARY KEY") defs) = 1%nat
  | _ => True
  end.

(** A node is created for a table of the run with exactly one primary-key
    column, one property per column. *)
Definition node_of_loaded_table (tables : list table) (ev : event) : Prop :=
  match ev with
  | Execute (CreateNode name props) =>
      exists tbl, In tbl tables /\ tbl_name tbl = name
                  /\ List.length (pk_names tbl) = 1%nat
                  /\ map fst props = column_keys tbl
  | _ => True
  end.

(** An edge operation comes from a foreign key of a table of the run, and
    its relationship type is named after parent and child. *)
Definition edge_of_foreign_key (src : source) (tables : list table) (ev : event) : Prop :=
  match ev with
  | Execute (CreateRelTable edge parent child)
  | Execute (MatchCreate parent child _ _ _ _ edge) =>
      edge = rel_table_name parent child
      /\ exists tbl fk, In tbl tables /\ tbl_name tbl = child
                        /\ In fk (get_foreign_keys src (tbl_name tbl) (tbl_schema tbl))
                        /\ referred_table fk = parent
  | _ => True
  end.

(** ** Verification *)

(** What [res.get_next()] returns: a list, or another record whose
    [values] are indexed. *)
Inductive record : Type :=
| RecordList (items : list pyval)
| RecordValues (values : list pyval).

(** The graph store as the verification reads it back:
    [conn._get_node_table_names()], [conn._get_rel_table_names()] (one
    dictionary per relationship table) and, for the text of a query, the
    first record of its result. *)
Record store_view : Type := StoreView {
  node_table_names : list string;
  rel_table_meta : list (list (string * string));
  next_record : string -> record
}.

(** [m[key]] on a dictionary, [None] where Python raises [KeyError]. *)
Definition dict_get (m : list (string * string)) (key : string) : option string :=
  option_map snd (find (fun kv => fst kv =? key) m).

(** The lines the verification prints, without their layout. *)
Inductive verify_message : Type :=
| NodeTables (names : list string)
| RelTablesRaw (meta : list (list (string * string)))
| RelTablesNames (names : list string)
| Counts
| NodeCount (tbl : string) (cnt : pyval)
| RelCount (rel : string) (cnt : pyval).

Inductive verify_event : Type :=
| Reported (m : verify_message)
| Queried (text : string).

Definition node_count_query (tbl : string) : string :=
  "MATCH (n:" ++ tbl ++ ") RETURN COUNT(n) AS cnt;".

Definition rel_count_query (rel : string) : string :=
  "MATCH ()-[r:" ++ rel ++ "]->() RETURN COUNT(r) AS cnt;".

(** [[m["name"] for m in rel_meta]]. *)
Fixpoint rel_names (meta : list (list (string * string))) : outcome (list string) :=
  match meta with
  | [] => Done []
  | m :: rest =>
      match dict_get m "name" with
      | None => Raised KeyError
      | Some name =>
          match rel_names rest with
          | Done names => Done (name :: names)
          | Raised e => Raised e
          end
      end
  end.

(** [rec[0] if isinstance(rec, list) else rec.values[0]]. *)
Definition first_value (rec : record) : outcome pyval :=
  match rec with
  | RecordList (x :: _) | RecordValues (x :: _) => Done x
  | _ => Raised IndexError
  end.

(** One of the two counting loops (server.py, lines 129-133 and 135-139). *)
Fixpoint count_loop (view : store_view) (query : string -> string)
    (line : string -> pyval -> verify_message) (names : list string)
    : list verify_event * outcome unit :=
  match names with
  | [] => ([], Done tt)
  | name :: rest =>
      match first_value (next_record view (query name)) with
      | Done cnt =>
          let (tr, r) := count_loop view query line rest in
          (Queried (query name) :: Reported (line name cnt) :: tr, r)
      | Raised e => ([Queried (query name)], Raised e)
      end
  end.

(** 6) Verify (server.py, lines 117-139). *)
Definition verify (view : store_view) : list verify_event * outcome unit :=
  let node_tables := node_table_names view in
  let rel_meta := rel_table_meta view in
  let listed := [Reported (NodeTables node_tables); Reported (RelTablesRaw rel_meta)] in
  match rel_names rel_meta with
  | Raised e => (listed, Raised e)
  | Done rel_tables =>
      let head := (listed ++ [Reported (RelTablesNames rel_tables); Reported Counts])%list in
      match count_loop view node_count_query NodeCount node_tables with
      | (tr1, Done _) =>
          let (tr2, r) := count_loop view rel_count_query RelCount rel_tables in
          ((head ++ tr1 ++ tr2)%list, r)
      | (tr1, Raised e) => ((head ++ tr1)%list, Raised e)
      end
  end.

(** The queries among the events. *)
Fixpoint queries (tr : list verify_event) : list string :=
  match tr with
  | [] => []
  | Queried text :: rest => text :: queries rest
  | Reported _ :: rest => queries rest
  end.

Definition has_first_value (rec : record) : bool :=
  match first_value rec with Done _ => true | Raised _ => false end.

(** The dictionary has no entry [name]. *)
Definition lacks_name (m : list (string * string)) : bool :=
  match dict_get m "name" with None => true | Some _ => false end.

End FurtherNotions.

(** ** A sample database *)

Module Sample.

(** A runtime whose floats and other objects are given by their texts. *)
#[local] Instance runtime : PyRuntime := {|
  pyfloat := string;
  float_repr := fun text => text;
  pyobject := string;
  object_str := fun text => text
|}.

Definition schema : option string := Some "compliance".

Definition customers : table :=
  Table schema "customers"
    [Column "id" sqltypes.INTEGER true;
     Column "name" sqltypes.VARCHAR false;
     Column "joined" sqltypes.DATE false]
    ["id"].

Definition orders : table :=
  Table schema "orders"
    [Column "id" sqltypes.INTEGER true;
     Column "customer_id" sqltypes.INTEGER false;
     Column "total" sqltypes.NUMERIC false]
    ["id"].

(** A table with a two-column primary key, and a table referring to it. *)
Definition order_items : table :=
  Table schema "order_items"
    [Column "order_id" sqltypes.INTEGER true;
     Column "line_no" sqltypes.INTEGER true;
     Column "sku" sqltypes.TEXT false]
    ["order_id"; "line_no"].

Definition shipments : table :=
  Table schema "shipments"
    [Column "id" sqltypes.INTEGER true;
     Column "item_order_id" sqltypes.INTEGER false;
     Column "item_line_no" sqltypes.INTEGER false]
    ["id"].


Definition refunds : table :=
  Table schema "refunds"
    [Column "id" sqltypes.INTEGER true;
     Column "order_id" sqltypes.INTEGER false]
    ["id"].

Definition rows (name : string) : list (list pyval) :=
  if name =? "customers" then
    [[VInt 1; VStr "Alice"; VDate (Date 2020 1 1)];
     [VInt 2; VStr "O'Brien"; VDate (Date 2021 6 15)]]
  else if name =? "orders" then
    [[VInt 1; VInt 1; VDecimal (Finite false 1999 (-2))]]
  else if name =? "order_items" then
    [[VInt 1; VInt 1; VStr "A-100"]]
  else if name =? "shipments" then
    [[VInt 7; VInt 1; VInt 1]]
  else if name =? "audit_log" then
    [[VStr "started"]]
  else [].

Definition foreign_keys (name : string) (_ : option string) : list foreign_key :=
  if name =? "orders" then [ForeignKey ["customer_id"] "customers" ["id"]]
  else if name =? "shipments" then
    [ForeignKey ["item_order_id"; "item_line_no"] "order_items" ["order_id"; "line_no"]]
  else if name =? "refunds" then [ForeignKey ["order_id"] "orders" ["id"]]
  else [].

Definition database : source := Source rows foreign_keys.

(** The tables as reflected, in two variants: every table with a primary
    key, and a schema that also holds the table without one. *)
Definition keyed_tables : list table :=
  [customers; orders; order_items; shipments; refunds].



Definition refunds_order_fk : foreign_key :=
  ForeignKey ["order_id"] "orders" ["id"].

(** The decimal [1E+2], a string that is a lone backslash, and a column of
    an exact decimal type. *)
Definition hundred : pyval := VDecimal (Finite false 1 2).
Definition lone_backslash : pyval := VStr "\".
Definition total_column : column := Column "total" sqltypes.NUMERIC false.

(** A runtime whose floats print without quotes. *)
Definition fixed_float_runtime : PyRuntime := {|
  pyfloat := unit;
  float_repr := fun _ => "1.5";
  pyobject := string;
  object_str := fun text => text
|}.

(** Two environments with the same settings. *)
Definition environment : list (string * string) :=
  [("POSTGRES_USER", "loader"); ("POSTGRES_DB", "crm")].

Definition reordered_environment : list (string * string) :=
  [("POSTGRES_DB", "crm"); ("KUZU_PATH", "graph"); ("POSTGRES_USER", "loader")].

(** The store after the run of customers and orders, as the verification
    reads it back; a view with a relationship entry without name; and a
    view listing a node table whose count query returns an empty record. *)
Definition count_of (text : string) : record :=
  if text =? node_count_query "customers" then RecordList [VInt 2]
  else if text =? node_count_query "orders" then RecordList [VInt 1]
  else if text =? rel_count_query "customers_orders_edge" then RecordValues [VInt 1]
  else RecordList [].

Definition loaded_view : store_view :=
  StoreView ["customers"; "orders"]
    [[("name", "customers_orders_edge"); ("src", "customers"); ("dst", "orders")]]
    count_of.

Definition nameless_view : store_view :=
  StoreView ["customers"; "orders"] [[("src", "customers"); ("dst", "orders")]] count_of.

Definition stale_view : store_view :=
  StoreView ["customers"; "ghosts"; "orders"]
    [[("name", "customers_orders_edge"); ("src", "customers"); ("dst", "orders")]]
    count_of.




(** A date, and a datetime with a fraction of a second and an offset of
    minus five and a half hours. *)
Definition june_fifth : date := Date 2021 6 5.
Definition half_past_nine : datetime :=
  Datetime june_fifth 9 30 0 45 (Some (-19800)%Z).

Definition obrien : pyval := VStr "O'Brien".
Definition text_null : pyval := VStr "null".
Definition forty_two : pyval := VInt 42.

End Sample.

(** ** The type mapper *)

Lemma isinstance_type_refl (ty : sqltypes.cls) : isinstance_type ty ty = true.
Proof. destruct ty; reflexivity. Qed.

(** Following the bases further than [sqltypes.depth] finds nothing more. *)
Lemma issubclass_depth_enough (c d : sqltypes.cls) (n : nat) :
  sqltypes.issubclass_upto (sqltypes.depth + n) c d = sqltypes.issubclass c d.
Proof. destruct c, d, n; reflexivity. Qed.

Lemma infer_type_primitive (col : column) : In (infer_type col) primitive_types.
Proof.
  unfold infer_type, primitive_types.
  destruct (isinstance_type _ sqltypes.Integer); [simpl; auto|].
  destruct (isinstance_type _ sqltypes.Float); [simpl; auto|].
  destruct (isinstance_type _ sqltypes.DateTime); simpl; auto.
Qed.

(** C1, as stated, fails: a column of the exact decimal type NUMERIC is of
    the floating/decimal family and a DATE column of the date/time family,
    yet the mapper answers STRING for both, since neither is an instance of
    [Float] or [DateTime]. *)
Lemma infer_type_decimal_and_date_are_string :
  infer_type Sample.total_column = "STRING"
  /\ infer_type Sample.total_column
     <> family_primitive (declared_family (col_type Sample.total_column))
  /\ infer_type (Column "joined" sqltypes.DATE false)
     <> family_primitive (declared_family sqltypes.DATE).
Proof. repeat split; vm_compute; discriminate. Qed.

(** C1, amended: the mapper is a total function into the four primitive
    types INT, DOUBLE, TIMESTAMP and STRING; it answers with the primitive
    of the declared type's family (INT for integers, DOUBLE for floating
    point, TIMESTAMP for timestamps, STRING for the rest), except that the
    exact decimal types (Numeric, NUMERIC, DECIMAL) and the plain date and
    time-of-day types (Date, Time, DATE, TIME) map to STRING. *)
Theorem infer_type_by_family (col : column) :
  In (infer_type col) primitive_types
  /\ infer_type col =
       if exact_decimal_or_plain_date (col_type col) then "STRING"
       else family_primitive (declared_family (col_type col)).
Proof.
  split; [apply infer_type_primitive|].
  destruct col as [n ty pk]; destruct ty; reflexivity.
Qed.

(** ** The value serializer *)

Section SerializerFacts.
Context {RT : PyRuntime}.

Lemma prefix_char (a c : ascii) (s : string) :
  String.prefix (String a "") (String c s) = Ascii.eqb c a.
Proof.
  change (String.prefix (String a "") (String c s))
    with (if ascii_dec a c then String.prefix "" s else false).
  destruct (ascii_dec a c) as [->|Hne].
  - rewrite Ascii.eqb_refl. now destruct s.
  - symmetry. apply Ascii.eqb_neq. congruence.
Qed.

Lemma replace_quote_escape (s : string) :
  replace_from 0 "'" "\'" s = escape_quotes s.
Proof.
  induction s as [|c s IH]; [reflexivity|].
  cbn [replace_from escape_quotes].
  rewrite prefix_char. unfold quote, backslash.
  destruct (Ascii.eqb c "'"); cbn [String.length Nat.sub append];
    now rewrite IH.
Qed.

Lemma str_replace_quote (s : string) : str_replace s "'" "\'" = escape_quotes s.
Proof. apply replace_quote_escape. Qed.

(** The models of the runtime functions on values whose Python results are
    well known. *)
Example str_replace_samples :
  str_replace "aaa" "aa" "b" = "ba"
  /\ str_replace "abcabc" "bc" "X" = "aXaX"
  /\ str_replace "ab" "" "-" = "-a-b-"
  /\ str_replace "it's 5 o'clock" "'" "\'" = "it\'s 5 o\'clock".
Proof. repeat split. Qed.

Example Decimal_str_samples :
  map Decimal_str
    [Finite false 1 2; Finite false 1999 (-2); Finite true 0 (-2);
     Finite false 123 (-8); Finite false 123 (-9); Finite false 0 3;
     Finite false 120 1; Finite false 5 (-6); Finite false 5 (-7);
     NaN false false 0; Infinity true]
  = ["1E+2"; "19.99"; "-0.00"; "0.00000123"; "1.23E-7"; "0E+3"; "1.20E+3";
     "0.000005"; "5E-7"; "NaN"; "-Infinity"].
Proof. reflexivity. Qed.

Example isoformat_samples :
  date_isoformat (Date 2021 6 15) = "2021-06-15"
  /\ datetime_isoformat (Datetime (Date 987 1 2) 3 4 5 0 None) = "0987-01-02T03:04:05"
  /\ datetime_isoformat (Datetime (Date 2021 6 15) 1 2 3 45 (Some (-19800)%Z))
     = "2021-06-15T01:02:03.000045-05:30".
Proof. repeat split. Qed.

(** The literal of each kind of value. *)
Lemma format_val_text (val : pyval) :
  format_val val =
    match val with
    | VNone => "null"
    | VBool b => if b then "true" else "false"
    | VInt z => Z_str z
    | VFloat f => float_repr f
    | VDecimal d => Decimal_str d
    | VDate d => "'" ++ date_isoformat d ++ "'"
    | VDatetime t => "'" ++ datetime_isoformat t ++ "'"
    | VStr s => "'" ++ escape_quotes s ++ "'"
    | VObject o => "'" ++ escape_quotes (object_str o) ++ "'"
    end.
Proof.
  destruct val; unfold format_val; cbn [is_None isinstance_bool isinstance_number
    isinstance_date truth py_str isoformat]; rewrite ?str_replace_quote; reflexivity.
Qed.


End SerializerFacts.

(** ** Strings of digits *)

Lemma append_nil_r (s : string) : s ++ "" = s.
Proof. induction s; simpl; congruence. Qed.

Lemma append_assoc (a b c : string) : (a ++ b) ++ c = a ++ b ++ c.
Proof. induction a; simpl; congruence. Qed.

Lemma length_append (a b : string) :
  String.length (a ++ b) = (String.length a + String.length b)%nat.
Proof. induction a; simpl; congruence. Qed.

Lemma take_drop (n : nat) (s : string) : take n s ++ drop n s = s.
Proof.
  revert s; induction n as [|n IH]; intros [|c s]; simpl; try reflexivity.
  now rewrite IH.
Qed.

Lemma length_drop (n : nat) (s : string) :
  String.length (drop n s) = (String.length s - n)%nat.
Proof.
  revert s; induction n as [|n IH]; intros [|c s]; simpl; auto.
Qed.

Lemma length_repeat_char (c : ascii) (n : nat) : String.length (repeat_char c n) = n.
Proof. induction n; simpl; congruence. Qed.

Lemma all_digits_app (a b : string) :
  all_digits (a ++ b) = all_digits a && all_digits b.
Proof.
  induction a as [|c a IH]; simpl; [reflexivity|].
  now rewrite IH, andb_assoc.
Qed.

Lemma all_digits_take_drop (n : nat) (s : string) :
  all_digits s = true -> all_digits (take n s) = true /\ all_digits (drop n s) = true.
Proof.
  intros H. rewrite <- (take_drop n s), all_digits_app in H.
  now apply andb_true_iff in H.
Qed.

Lemma all_digits_zeros (n : nat) : all_digits (repeat_char "0" n) = true.
Proof. induction n; simpl; auto. Qed.

Lemma all_digits_uint (u : Decimal.uint) :
  all_digits (NilEmpty.string_of_uint u) = true.
Proof. induction u; simpl; auto. Qed.

Lemma N_str_digits (n : N) : all_digits (N_str n) = true.
Proof. apply all_digits_uint. Qed.

Lemma N_str_cons (n : N) : exists c s, N_str n = String c s /\ is_digit c = true.
Proof.
  assert (Hd := N_str_digits n).
  assert (Hn : N.to_uint n <> Decimal.Nil).
  { destruct n; simpl; [discriminate|apply Unsigned.to_uint_nonnil]. }
  unfold N_str in *. destruct (N.to_uint n); try congruence;
    simpl in *; eexists _, _; split; reflexivity.
Qed.

Lemma N_str_length (n : N) : (1 <= String.length (N_str n))%nat.
Proof. destruct (N_str_cons n) as (c & s & -> & _). simpl. lia. Qed.

Lemma digits_value_N_str (n : N) : digits_value (N_str n) = Some n.
Proof.
  unfold digits_value, N_str. rewrite NilEmpty.usu. simpl.
  now rewrite DecimalN.Unsigned.of_to.
Qed.

Lemma digits_value_zero (s : string) : digits_value (String "0" s) = digits_value s.
Proof.
  unfold digits_value. simpl. now destruct (NilEmpty.uint_of_string s).
Qed.

Lemma digits_value_zeros (k : nat) (s : string) :
  digits_value (repeat_char "0" k ++ s) = digits_value s.
Proof.
  induction k as [|k IH]; simpl; [reflexivity|].
  now rewrite digits_value_zero.
Qed.

(** A digit is none of the other characters of a numeral. *)
Lemma digit_not_symbol (c : ascii) :
  is_digit c = true ->
  Ascii.eqb c "-" = false /\ Ascii.eqb c "+" = false /\ Ascii.eqb c "." = false
  /\ Ascii.eqb c "E" = false /\ Ascii.eqb c "e" = false /\ Ascii.eqb c quote = false.
Proof.
  destruct c as [[] [] [] [] [] [] [] []]; simpl; intros H;
    try discriminate H; repeat split; reflexivity.
Qed.

Lemma span_digits_app (a b : string) :
  all_digits a = true -> digit_free_head b -> span_digits (a ++ b) = (a, b).
Proof.
  intros Ha Hb. induction a as [|c a IH]; simpl in *.
  - destruct b as [|c b]; simpl in *; [reflexivity|now rewrite Hb].
  - apply andb_true_iff in Ha as [Hc Ha]. now rewrite Hc, IH.
Qed.

Lemma parse_exponent_signed (z : Z) : parse_exponent (signed_str z) = Some z.
Proof.
  unfold signed_str.
  destruct (N_str_cons (Z.abs_N z)) as (c & s & E & _).
  assert (V := digits_value_N_str (Z.abs_N z)).
  destruct (Z.ltb_spec z 0); simpl; rewrite E in *; rewrite V; simpl; f_equal; lia.
Qed.

(** ** Decimal numerals *)

Lemma exp_text_head (x : option Z) : digit_free_head (exp_text x).
Proof. destruct x; reflexivity. Qed.

Lemma nonempty_app (a b : string) : a <> "" -> (a ++ b =? "") = false.
Proof. destruct a; [congruence|reflexivity]. Qed.

Lemma parse_number_fraction (sg : bool) (ip fp : string) (x : option Z) (coeff : N) :
  all_digits ip = true -> ip <> "" -> all_digits fp = true ->
  digits_value (ip ++ fp) = Some coeff ->
  parse_number sg (ip ++ "." ++ fp ++ exp_text x)
  = Some (Finite sg coeff (exp_value x - Z.of_nat (String.length fp))).
Proof.
  intros Hip Hne Hfp Hv. unfold parse_number.
  rewrite (span_digits_app ip _ Hip) by reflexivity.
  cbn [append]. rewrite Ascii.eqb_refl.
  rewrite (span_digits_app fp _ Hfp (exp_text_head x)).
  rewrite (nonempty_app _ Hne), Hv.
  destruct x as [z|]; simpl.
  - now rewrite parse_exponent_signed.
  - reflexivity.
Qed.

Lemma parse_number_integer (sg : bool) (ip : string) (x : option Z) (coeff : N) :
  all_digits ip = true -> ip <> "" -> digits_value ip = Some coeff ->
  parse_number sg (ip ++ exp_text x) = Some (Finite sg coeff (exp_value x)).
Proof.
  intros Hip Hne Hv. unfold parse_number.
  rewrite (span_digits_app ip _ Hip (exp_text_head x)).
  destruct x as [z|]; simpl.
  - rewrite append_nil_r, Hv. destruct ip; [congruence|]. simpl.
    rewrite parse_exponent_signed. simpl. do 2 f_equal. lia.
  - rewrite append_nil_r, Hv. destruct ip; [congruence|]. reflexivity.
Qed.

Lemma parse_numeral (sg : bool) (ip : string) (dot : bool) (fp : string) (x : option Z) (coeff : N) :
  all_digits ip = true -> ip <> "" -> all_digits fp = true ->
  (dot = false -> fp = "") ->
  digits_value (ip ++ fp) = Some coeff ->
  parse_decimal (numeral sg ip dot fp x)
  = Some (Finite sg coeff (exp_value x - Z.of_nat (String.length fp))).
Proof.
  intros Hip Hne Hfp Hdot Hv.
  assert (Hnum : parse_number sg (ip ++ (if dot then "." ++ fp else "") ++ exp_text x)
                 = Some (Finite sg coeff (exp_value x - Z.of_nat (String.length fp)))).
  { destruct dot.
    - rewrite append_assoc. now apply parse_number_fraction.
    - rewrite (Hdot eq_refl) in *. rewrite append_nil_r in Hv. cbn [append String.length].
      rewrite (parse_number_integer sg x Hip Hne Hv). do 2 f_equal. lia. }
  unfold numeral. destruct sg; [exact Hnum|].
  cbn [append]. destruct ip as [|c ip]; [congruence|].
  simpl in Hip. apply andb_true_iff in Hip as [Hc _].
  destruct (digit_not_symbol c Hc) as (Hm & Hp & _).
  change ((String c ip) ++ ?r) with (String c (ip ++ r)) in *.
  unfold parse_decimal. rewrite Hm, Hp. exact Hnum.
Qed.

(** The layout [Decimal.__str__] gives a finite number. *)
Lemma Decimal_str_layout (sg : bool) (c : N) (e : Z) :
  exists ip dot fp,
    Decimal_str (Finite sg c e)
    = numeral sg ip dot fp
        (if plain_notation c e then None
         else Some (e + Z.of_nat (String.length (N_str c)) - 1)%Z)
    /\ all_digits ip = true /\ ip <> "" /\ all_digits fp = true
    /\ (dot = false -> fp = "")
    /\ digits_value (ip ++ fp) = Some c
    /\ (exp_value (if plain_notation c e then None
                   else Some (e + Z.of_nat (String.length (N_str c)) - 1)%Z)
        - Z.of_nat (String.length fp) = e)%Z.
Proof.
  unfold Decimal_str, plain_notation, numeral.
  assert (Hd := N_str_digits c). assert (Hl := N_str_length c).
  assert (Hv := digits_value_N_str c).
  destruct (N_str_cons c) as (c0 & s0 & Hcons & _).
  set (txt := N_str c) in *. set (len := Z.of_nat (String.length txt)) in *.
  assert (Hlen : (1 <= len)%Z) by lia.
  assert (Hne : txt <> "") by (rewrite Hcons; discriminate).
  cbv zeta.
  destruct ((e <=? 0)%Z && (-6 <? e + len)%Z) eqn:Hplain.
  - apply andb_true_iff in Hplain as [He Hl6].
    apply Z.leb_le in He. apply Z.ltb_lt in Hl6.
    rewrite Z.eqb_refl.
    destruct (Z.leb_spec (e + len) 0) as [Hdp|Hdp].
    + exists "0", true, (repeat_char "0" (Z.to_nat (- (e + len))) ++ txt).
      repeat apply conj; try reflexivity; try discriminate.
      * rewrite all_digits_app, all_digits_zeros. exact Hd.
      * cbn [append]. now rewrite digits_value_zero, digits_value_zeros.
      * rewrite length_append, length_repeat_char. cbn [exp_value]. fold len. lia.
    + destruct (Z.leb_spec len (e + len)) as [Hfull|Hpart].
      * exists txt, false, "". replace (e + len - len)%Z with 0%Z by lia.
        cbn [Z.to_nat repeat_char]. rewrite !append_nil_r.
        repeat apply conj; auto. cbn. lia.
      * exists (take (Z.to_nat (e + len)) txt), true, (drop (Z.to_nat (e + len)) txt).
        destruct (all_digits_take_drop (Z.to_nat (e + len)) txt Hd) as [Ht Hdr].
        repeat apply conj; auto; try discriminate.
        -- rewrite Hcons. destruct (Z.to_nat (e + len)) eqn:En; [lia|discriminate].
        -- now rewrite take_drop.
        -- rewrite length_drop. cbn [exp_value]. fold len. lia.
  - assert (Hsci : (0 < e \/ e + len <= -6)%Z).
    { apply andb_false_iff in Hplain as [H|H];
        [apply Z.leb_gt in H|apply Z.ltb_ge in H]; lia. }
    destruct (Z.eqb_spec (e + len) 1) as [E1|_]; [lia|].
    cbn [Z.leb Z.compare].
    destruct (Z.leb_spec len 1) as [Hone|Hmany].
    + exists txt, false, "". replace (1 - len)%Z with 0%Z by lia.
      cbn [Z.to_nat repeat_char]. rewrite !append_nil_r.
      repeat apply conj; auto. cbn [exp_value String.length]. lia.
    + exists (take 1 txt), true, (drop 1 txt).
      destruct (all_digits_take_drop 1 txt Hd) as [Ht Hdr].
      repeat apply conj; auto; try discriminate.
      * rewrite Hcons. discriminate.
      * now rewrite take_drop.
      * rewrite length_drop. cbn [exp_value]. fold len. lia.
Qed.

Lemma contains_app (c : ascii) (a b : string) :
  contains c (a ++ b) = contains c a || contains c b.
Proof.
  induction a as [|x a IH]; simpl; [reflexivity|].
  now rewrite IH, orb_assoc.
Qed.

(** A string of digits holds no character that is not a digit. *)
Lemma digits_contain (c : ascii) (s : string) :
  is_digit c = false -> all_digits s = true -> contains c s = false.
Proof.
  intros Hc. induction s as [|x s IH]; simpl; [reflexivity|].
  intros H. apply andb_true_iff in H as [Hx Hs].
  rewrite (IH Hs), orb_false_r.
  apply Ascii.eqb_neq. intros ->. congruence.
Qed.

Lemma contains_E_numeral (sg : bool) (ip : string) (dot : bool) (fp : string) (x : option Z) :
  all_digits ip = true -> all_digits fp = true ->
  contains "E" (numeral sg ip dot fp x) = match x with Some _ => true | None => false end.
Proof.
  intros Hip Hfp. unfold numeral.
  rewrite !contains_app, (digits_contain "E" ip eq_refl Hip).
  assert (Hdot : contains "E" (if dot then "." ++ fp else "") = false).
  { destruct dot; [|reflexivity]. cbn [append contains].
    now rewrite (digits_contain "E" fp eq_refl Hfp). }
  rewrite Hdot. destruct sg, x; reflexivity.
Qed.

(** C3, as stated, fails: the decimal 1E+2 is serialized with an exponent. *)
Lemma format_val_hundred_has_exponent :
  format_val Sample.hundred = "1E+2"
  /\ contains "E" (format_val Sample.hundred) = true.
Proof. split; reflexivity. Qed.

Section DecimalSerialization.
Context {RT : PyRuntime}.

(** C3, amended: every finite decimal is serialized as the text Python's
    [str] gives it, which loses nothing: reading the text back as a decimal
    numeral yields the same sign, coefficient and exponent.  The text has
    no exponent exactly when the decimal's exponent is at most zero and
    fewer than six zeros separate the decimal point from the coefficient;
    otherwise (as for 1E+2) it is in scientific notation. *)
Theorem format_val_decimal_round_trip (sg : bool) (c : N) (e : Z) :
  format_val (VDecimal (Finite sg c e)) = Decimal_str (Finite sg c e)
  /\ parse_decimal (format_val (VDecimal (Finite sg c e))) = Some (Finite sg c e)
  /\ contains "E" (format_val (VDecimal (Finite sg c e)))
     = negb ((e <=? 0) && (-6 <? e + Z.of_nat (String.length (N_str c))))%Z.
Proof.
  change (format_val (VDecimal (Finite sg c e))) with (Decimal_str (Finite sg c e)).
  split; [reflexivity|].
  destruct (Decimal_str_layout sg c e)
    as (ip & dot & fp & Htxt & Hip & Hne & Hfp & Hdot & Hv & He).
  rewrite Htxt. split.
  - rewrite (parse_numeral sg _ Hip Hne Hfp Hdot Hv). now rewrite He.
  - rewrite (@contains_E_numeral sg ip dot fp _ Hip Hfp).
    fold (plain_notation c e). now destruct (plain_notation c e).
Qed.

End DecimalSerialization.

(** ** Literals that are closed *)

Lemma plain_text_app (a b : string) :
  plain_text (a ++ b) = plain_text a && plain_text b.
Proof.
  induction a as [|c a IH]; simpl; [reflexivity|].
  now rewrite IH, andb_assoc.
Qed.

Lemma plain_text_digits (s : string) : all_digits s = true -> plain_text s = true.
Proof.
  induction s as [|c s IH]; simpl; [reflexivity|].
  intros H. apply andb_true_iff in H as [Hc Hs]. now rewrite Hc, IH.
Qed.

Lemma plain_text_contains (c : ascii) (s : string) :
  is_digit c = false -> is_punctuation c = false ->
  plain_text s = true -> contains c s = false.
Proof.
  intros Hd Hp. induction s as [|x s IH]; simpl; [reflexivity|].
  intros H. apply andb_true_iff in H as [Hx Hs]. rewrite (IH Hs), orb_false_r.
  apply Ascii.eqb_neq. intros ->. rewrite Hd, Hp in Hx. discriminate.
Qed.

Lemma plain_text_N_str (n : N) : plain_text (N_str n) = true.
Proof. apply plain_text_digits, N_str_digits. Qed.

Lemma plain_text_zero_pad (w : nat) (n : N) : plain_text (zero_pad w n) = true.
Proof.
  unfold zero_pad. rewrite plain_text_app, plain_text_N_str, andb_true_r.
  apply plain_text_digits, all_digits_zeros.
Qed.

Lemma plain_text_Z_str (z : Z) : plain_text (Z_str z) = true.
Proof.
  unfold Z_str, NilZero.string_of_int, NilZero.string_of_uint.
  destruct (Z.to_int z) as [u|u]; destruct u; try reflexivity;
    cbn [plain_text is_punctuation is_digit orb andb];
    apply plain_text_digits, all_digits_uint.
Qed.

Lemma plain_text_signed_str (z : Z) : plain_text (signed_str z) = true.
Proof.
  unfold signed_str. rewrite plain_text_app, plain_text_N_str.
  now destruct (z <? 0)%Z.
Qed.

Lemma plain_text_numeral (sg : bool) (ip : string) (dot : bool) (fp : string) (x : option Z) :
  all_digits ip = true -> all_digits fp = true ->
  plain_text (numeral sg ip dot fp x) = true.
Proof.
  intros Hip Hfp. unfold numeral, exp_text.
  rewrite !plain_text_app, (plain_text_digits _ Hip).
  assert (Hdot : plain_text (if dot then "." ++ fp else "") = true).
  { destruct dot; [|reflexivity]. cbn. now apply plain_text_digits. }
  rewrite Hdot. destruct sg, x as [z|]; cbn; rewrite ?plain_text_signed_str; reflexivity.
Qed.

Lemma plain_text_date (d : date) : plain_text (date_isoformat d) = true.
Proof.
  unfold date_isoformat. now rewrite !plain_text_app, !plain_text_zero_pad.
Qed.

Lemma plain_text_datetime (sep : string) (t : datetime) :
  plain_text sep = true -> plain_text (datetime_isoformat_sep sep t) = true.
Proof.
  intros Hsep. unfold datetime_isoformat_sep, format_time, format_offset.
  destruct (utcoffset t) as [o|];
    [destruct (o <? 0)%Z, (Z.abs_N o mod 60 =? 0)%N|];
    destruct (microsecond t =? 0)%N;
    repeat rewrite ?plain_text_app, ?plain_text_zero_pad, ?plain_text_date, ?Hsep;
    reflexivity.
Qed.

(** No quote in the text of a decimal: digits and punctuation for a finite
    number, letters and digits for the special values. *)
Lemma Decimal_str_no_quote (d : Decimal) : contains quote (Decimal_str d) = false.
Proof.
  destruct d as [sg c e|sg|sg sig p].
  - destruct (Decimal_str_layout sg c e) as (ip & dot & fp & -> & Hip & _ & Hfp & _).
    apply plain_text_contains; try reflexivity. now apply plain_text_numeral.
  - now destruct sg.
  - cbn [Decimal_str]. rewrite !contains_app.
    assert (Hp : contains quote (if (p =? 0)%N then "" else N_str p) = false).
    { destruct (p =? 0)%N; [reflexivity|].
      apply plain_text_contains; try reflexivity. apply plain_text_N_str. }
    rewrite Hp. now destruct sg, sig.
Qed.

Lemma closed_unquoted (s : string) : contains quote s = false -> closed_literal s = true.
Proof.
  destruct s as [|c s]; [reflexivity|]. intros H. unfold closed_literal.
  rewrite H. cbn [contains] in H. apply orb_false_iff in H as [-> _]. reflexivity.
Qed.

(** Between quotes, a text with every quote escaped and no backslash of its
    own is closed by the final quote. *)
Lemma closed_escaped (s : string) :
  contains backslash s = false -> closes_at_end (escape_quotes s ++ "'") = true.
Proof.
  induction s as [|c s IH]; [reflexivity|].
  cbn [contains escape_quotes]. intros H. apply orb_false_iff in H as [Hc Hs].
  destruct (Ascii.eqb c quote) eqn:Hq.
  - cbn. now apply IH.
  - cbn [append closes_at_end]. rewrite Hq, Hc. now apply IH.
Qed.

Lemma closed_plain (s : string) :
  plain_text s = true -> closes_at_end (s ++ "'") = true.
Proof.
  induction s as [|c s IH]; [reflexivity|].
  cbn [plain_text append closes_at_end]. intros H. apply andb_true_iff in H as [Hc Hs].
  assert (Hq : Ascii.eqb c quote = false /\ Ascii.eqb c backslash = false).
  { destruct c as [[] [] [] [] [] [] [] []]; try discriminate Hc; split; reflexivity. }
  destruct Hq as [-> ->]. now apply IH.
Qed.

Section ClosedLiterals.
Context {RT : PyRuntime}.

(** X4: apart from backslashes the serializer is safe: when the runtime
    writes floats without quotes, every value whose string conversion holds
    no backslash is serialized as a closed literal. *)
Lemma format_val_closed_without_backslash (val : pyval) :
  (forall f, contains quote (float_repr f) = false) ->
  backslash_free val = true ->
  closed_literal (format_val val) = true.
Proof.
  intros Hfloat Hfree. rewrite (format_val_text val).
  destruct val as [|b|z|f|d|d|t|s|o]; cbn [backslash_free] in Hfree.
  - reflexivity.
  - now destruct b.
  - apply closed_unquoted, plain_text_contains; try reflexivity. apply plain_text_Z_str.
  - apply closed_unquoted, Hfloat.
  - apply closed_unquoted, Decimal_str_no_quote.
  - apply (closed_plain (date_isoformat d)), plain_text_date.
  - apply (closed_plain (datetime_isoformat t)). now apply plain_text_datetime.
  - apply (closed_escaped s). now apply negb_true_iff.
  - apply (closed_escaped (object_str o)). now apply negb_true_iff.
Qed.

End ClosedLiterals.

(** C4 at a failing input: for a string that is a lone backslash the
    serializer returns a quote, a backslash and a quote; the backslash
    escapes the closing quote, so the literal is not closed. *)
Theorem format_val_backslash_not_closed :
  format_val Sample.lone_backslash = "'\'"
  /\ closed_literal (format_val Sample.lone_backslash) = false.
Proof. split; reflexivity. Qed.

(** ** Traces of the loaders *)

Lemma bind_done {A B : Type} (tr : list event) (a : A) (k : A -> M B) :
  bind (tr, Done a) k = ((tr ++ trace (k a))%list, result (k a)).
Proof. unfold bind, trace, result. now destruct (k a). Qed.

Lemma bind_execute {B : Type} (q : statement) (k : unit -> M B) :
  bind (execute q) k = (Execute q :: trace (k tt), result (k tt)).
Proof. unfold execute. now rewrite bind_done. Qed.

Lemma bind_print {B : Type} (m : message) (k : unit -> M B) :
  bind (print m) k = (Printed m :: trace (k tt), result (k tt)).
Proof. unfold print. now rewrite bind_done. Qed.


Lemma trace_bind_Forall {A B : Type} (P : event -> Prop) (m : M A) (k : A -> M B) :
  Forall P (trace m) -> (forall a, Forall P (trace (k a))) ->
  Forall P (trace (bind m k)).
Proof.
  destruct m as [tr [a|e]]; intros Hm Hk; [|exact Hm].
  rewrite bind_done. apply Forall_app. split; [exact Hm|apply Hk].
Qed.

Lemma for_each_Forall {A : Type} (P : event -> Prop) (xs : list A) (body : A -> M unit) :
  (forall x, In x xs -> Forall P (trace (body x))) ->
  Forall P (trace (for_each xs body)).
Proof.
  induction xs as [|x xs IH]; intros H; [constructor|].
  cbn [for_each]. apply trace_bind_Forall.
  - apply H. now left.
  - intros _. apply IH. intros y Hy. apply H. now right.
Qed.

Lemma for_each_done {A : Type} (xs : list A) (body : A -> M unit) :
  (forall x, In x xs -> result (body x) = Done tt) ->
  for_each xs body = (flat_map (fun x => trace (body x)) xs, Done tt).
Proof.
  induction xs as [|x xs IH]; intros H; [reflexivity|].
  cbn [for_each flat_map].
  assert (Hx := H x (or_introl eq_refl)).
  destruct (body x) as [tr r] eqn:E. cbn [result snd] in Hx. subst r.
  rewrite bind_done, IH by (intros y Hy; apply H; now right).
  reflexivity.
Qed.

Lemma for_each_execute {A : Type} (xs : list A) (f : A -> statement) :
  for_each xs (fun x => execute (f x)) = (map (fun x => Execute (f x)) xs, Done tt).
Proof.
  rewrite for_each_done by reflexivity.
  f_equal; induction xs as [|x xs IH]; cbn; congruence.
Qed.

(** A loop stops at the first item whose body raises. *)
Lemma for_each_raised {A : Type} (xs : list A) (body : A -> M unit) (x : A) (e : exn) :
  In x xs -> result (body x) = Raised e ->
  (forall y, In y xs -> result (body y) = Done tt \/ result (body y) = Raised e) ->
  result (for_each xs body) = Raised e.
Proof.
  induction xs as [|y xs IH]; intros Hin Hx Hall; [destruct Hin|].
  cbn [for_each].
  destruct (Hall y (or_introl eq_refl)) as [Hy|Hy];
    destruct (body y) as [tr r] eqn:E; cbn [result snd] in Hy; subst r.
  - rewrite bind_done. cbn [result snd].
    destruct Hin as [->|Hin]; [rewrite E in Hx; discriminate|].
    apply IH; auto. intros z Hz. apply Hall. now right.
  - reflexivity.
Qed.

Lemma combine_map {A B C : Type} (f : A -> B) (g : A -> C) (l : list A) :
  combine (map f l) (map g l) = map (fun x => (f x, g x)) l.
Proof. induction l as [|x l IH]; cbn; congruence. Qed.

Section LoaderFacts.
Context {RT : PyRuntime}.
Variable src : source.

Lemma node_props_fetched (tbl : table) (row : list pyval) :
  node_props tbl (map (cell tbl row) (tbl_columns tbl))
  = map (fun c => (col_name c, format_val (cell tbl row c))) (tbl_columns tbl).
Proof.
  unfold node_props, column_keys. rewrite combine_map, map_map. reflexivity.
Qed.

(** What the node loop does for one table. *)
Lemma load_node_table_events (tbl : table) :
  load_node_table src tbl
  = (if (List.length (pk_names tbl) =? 1)%nat then node_table_events src tbl
     else [Printed (Skipping (tbl_name tbl) (List.length (pk_names tbl)))],
     Done tt).
Proof.
  unfold load_node_table. destruct (List.length (pk_names tbl) =? 1)%nat; [|reflexivity].
  cbn [negb]. rewrite for_each_execute, bind_done.
  rewrite !bind_execute, !bind_print. cbn [trace result fst snd].
  unfold node_table_events, select_table, print.
  rewrite length_map, map_map. cbn [app fst snd].
  do 4 f_equal. cbn [trace fst]. f_equal. apply map_ext. intros row.
  unfold node_of_row. now rewrite node_props_fetched.
Qed.

Lemma load_nodes_events (tables : list table) :
  load_nodes src tables
  = (flat_map (fun tbl => trace (load_node_table src tbl)) tables, Done tt).
Proof.
  unfold load_nodes. apply for_each_done.
  intros tbl _. now rewrite load_node_table_events.
Qed.

Lemma migrate_trace (tables : list table) :
  trace (migrate src tables)
  = (trace (load_nodes src tables) ++ trace (load_edges src tables))%list
  /\ result (migrate src tables) = result (load_edges src tables).
Proof.
  unfold migrate. rewrite load_nodes_events, bind_done. split; reflexivity.
Qed.

(** The node phase names, in its node operations, the table at hand only,
    and issues no edge operation. *)
Lemma node_table_ops (tbl : table) :
  Forall (fun ev => is_edge_op ev = false
                    /\ (node_op_name ev = None \/ node_op_name ev = Some (tbl_name tbl)))
    (trace (load_node_table src tbl)).
Proof.
  rewrite load_node_table_events. cbn [trace fst].
  destruct (List.length (pk_names tbl) =? 1)%nat.
  - unfold node_table_events. repeat (apply Forall_cons; [cbn; auto|]).
    apply Forall_app. split.
    + apply Forall_forall. intros ev Hin. apply in_map_iff in Hin as (row & <- & _).
      cbn. auto.
    + apply Forall_cons; [cbn; auto|constructor].
  - apply Forall_cons; [cbn; auto|constructor].
Qed.

Lemma first_item_trace {A : Type} (P : event -> Prop) (l : list A) :
  Forall P (trace (first_item l)).
Proof. destruct l; constructor. Qed.

Lemma get_column_trace (P : event -> Prop) (tbl : table) (key : string) :
  Forall P (trace (get_column tbl key)).
Proof. unfold get_column. destruct (find_column tbl key); constructor. Qed.

Lemma plan_edge_silent (tbl : table) (fk : foreign_key) :
  trace (plan_edge tbl fk) = [].
Proof.
  unfold plan_edge, first_item, get_column.
  destruct (constrained_columns fk) as [|c0 cs]; [reflexivity|].
  cbn. destruct (find_column tbl c0); [|reflexivity].
  cbn. destruct (referred_columns fk); [reflexivity|].
  cbn. destruct (tbl_primary_key tbl); reflexivity.
Qed.

Lemma load_edge_ops (tbl : table) (fk : foreign_key) :
  Forall (fun ev => is_node_op ev = false
                    /\ (edge_op_ends ev = None
                        \/ exists parent, edge_op_ends ev = Some (parent, tbl_name tbl)))
    (trace (load_edge src tbl fk)).
Proof.
  unfold load_edge.
  apply trace_bind_Forall; [rewrite plan_edge_silent; constructor|].
  intros p. unfold load_planned_edge.
  apply trace_bind_Forall; [apply get_column_trace|].
  intros c.
  destruct (select_pairs src tbl (plan_fk_col p) c) as [|pr ps] eqn:E; [constructor|].
  rewrite <- E.
  apply trace_bind_Forall; [apply Forall_cons; [cbn; eauto|constructor]|].
  intros _. apply trace_bind_Forall.
  - apply for_each_Forall. intros ids _. apply Forall_cons; [cbn; eauto|constructor].
  - intros _. apply Forall_cons; [cbn; auto|constructor].
Qed.

Lemma load_edge_table_ops (tbl : table) :
  Forall (fun ev => is_node_op ev = false
                    /\ (edge_op_ends ev = None
                        \/ exists parent, edge_op_ends ev = Some (parent, tbl_name tbl)))
    (trace (load_edge_table src tbl)).
Proof.
  unfold load_edge_table. apply trace_bind_Forall; [apply first_item_trace|].
  intros _. apply for_each_Forall. intros fk _. apply load_edge_ops.
Qed.

End LoaderFacts.

(** ** Reflected tables and foreign keys *)

Lemma find_column_some (tbl : table) (k : string) :
  In k (column_keys tbl) -> exists c, find_column tbl k = Some c /\ col_name c = k.
Proof.
  unfold column_keys, find_column. induction (tbl_columns tbl) as [|c cols IH]; [intros []|].
  cbn [map In find]. intros H.
  destruct (String.eqb_spec (col_name c) k) as [E|Hne]; [eauto|].
  destruct H as [H|H]; [congruence|auto].
Qed.

Lemma find_column_name (tbl : table) (k : string) (c : column) :
  find_column tbl k = Some c -> col_name c = k.
Proof.
  unfold find_column. intros H. apply find_some in H as [_ H].
  now apply String.eqb_eq.
Qed.

Lemma existsb_eqb_In (k : string) (l : list string) :
  existsb (String.eqb k) l = true -> In k l.
Proof.
  intros H. apply existsb_exists in H as (x & Hin & E).
  apply String.eqb_eq in E. now subst.
Qed.

Lemma pk_names_columns (tbl : table) (k : string) :
  In k (pk_names tbl) -> In k (column_keys tbl).
Proof.
  unfold pk_names, column_keys. intros H.
  apply in_map_iff in H as (c & <- & Hc). apply filter_In in Hc as [Hc _].
  now apply in_map.
Qed.

(** In a well-formed table with a primary key, the first column of the key
    constraint is one of the flagged columns. *)
Lemma wf_table_first_key (tbl : table) :
  wf_table tbl = true -> pk_names tbl <> [] ->
  exists k ks, tbl_primary_key tbl = k :: ks /\ In k (pk_names tbl).
Proof.
  unfold wf_table. intros H Hne. apply andb_true_iff in H as [Hlen Hall].
  apply Nat.eqb_eq in Hlen.
  destruct (tbl_primary_key tbl) as [|k ks].
  - destruct (pk_names tbl); [congruence|discriminate].
  - exists k, ks. split; [reflexivity|].
    cbn [forallb] in Hall. apply andb_true_iff in Hall as [Hk _].
    now apply existsb_eqb_In.
Qed.

Section EdgeFacts.
Context {RT : PyRuntime}.
Variable src : source.

Lemma select_pairs_rows (tbl : table) (c1 c2 : column) :
  select_pairs src tbl c1 c2 = [] <-> table_rows src (tbl_name tbl) = [].
Proof.
  unfold select_pairs. destruct (table_rows src (tbl_name tbl)); cbn; split; congruence.
Qed.

(** What the edge loop does for a planned foreign key. *)
Lemma load_planned_edge_events (tbl : table) (p : edge_plan) (pk_col : column) :
  find_column tbl (plan_child_pk p) = Some pk_col ->
  col_name pk_col = plan_child_pk p ->
  load_planned_edge src tbl p
  = (match table_rows src (tbl_name tbl) with
     | [] => []
     | _ => edge_events src tbl (plan_parent p) (plan_fk_col p) (plan_parent_pk p) pk_col
     end, Done tt).
Proof.
  intros Hfind Hname. unfold load_planned_edge, get_column. rewrite Hfind.
  unfold ret at 1. rewrite bind_done. cbn [trace result fst snd app].
  assert (Hrows := select_pairs_rows tbl (plan_fk_col p) pk_col).
  remember (select_pairs src tbl (plan_fk_col p) pk_col) as pairs eqn:Hpairs.
  destruct pairs as [|pr prs] eqn:E.
  - rewrite (proj1 Hrows eq_refl). reflexivity.
  - cbv beta match. rewrite <- E.
    rewrite for_each_execute, bind_execute, bind_done. cbn [trace result fst snd].
    destruct (table_rows src (tbl_name tbl)) as [|row rows] eqn:Erows.
    { destruct Hrows as [_ Hr]. discriminate (Hr eq_refl). }
    clear Hrows Erows. subst pairs. rewrite Hpairs.
    unfold edge_events, edge_of_row, print, select_pairs. cbn [app trace result fst snd].
    rewrite length_map, map_map, Hname. reflexivity.
Qed.

Lemma plan_edge_done (tbl : table) (fk : foreign_key) (c0 parent_pk k : string)
    (cs ps ks : list string) (fk_col : column) :
  constrained_columns fk = c0 :: cs -> referred_columns fk = parent_pk :: ps ->
  tbl_primary_key tbl = k :: ks -> find_column tbl c0 = Some fk_col ->
  plan_edge tbl fk = ([], Done (EdgePlan (referred_table fk) fk_col parent_pk k)).
Proof.
  intros Hc Hr Hk Hf. unfold plan_edge, get_column.
  rewrite Hc, Hr, Hk. cbn [first_item]. unfold ret at 1. rewrite bind_done, Hf.
  reflexivity.
Qed.

Lemma load_edge_done (tbl : table) (fk : foreign_key) :
  wf_table tbl = true -> pk_names tbl <> [] -> wf_foreign_key tbl fk = true ->
  result (load_edge src tbl fk) = Done tt.
Proof.
  intros Hwf Hpk Hfk.
  destruct (wf_table_first_key tbl Hwf Hpk) as (k & ks & Hk & Hin).
  destruct (find_column_some tbl k (pk_names_columns tbl k Hin)) as (pk_col & Hfind & Hname).
  unfold wf_foreign_key in Hfk.
  destruct (constrained_columns fk) as [|c0 cs] eqn:Hc; [discriminate|].
  destruct (referred_columns fk) as [|r rs] eqn:Hr; [discriminate|].
  destruct (find_column_some tbl c0 (existsb_eqb_In _ _ Hfk)) as (fk_col & Hf & _).
  unfold load_edge. rewrite (plan_edge_done tbl fk Hc Hr Hk Hf), bind_done.
  cbn [result snd].
  now rewrite (@load_planned_edge_events tbl (EdgePlan (referred_table fk) fk_col r k)
                 pk_col Hfind Hname).
Qed.

Lemma load_edge_table_result (tbl : table) :
  wf_table tbl = true ->
  forallb (wf_foreign_key tbl) (get_foreign_keys src (tbl_name tbl) (tbl_schema tbl)) = true ->
  load_edge_table src tbl
  = match pk_names tbl with
    | [] => ([], Raised IndexError)
    | _ => (trace (load_edge_table src tbl), Done tt)
    end.
Proof.
  intros Hwf Hfks. unfold load_edge_table.
  destruct (pk_names tbl) as [|pk pks] eqn:Hpk; [reflexivity|].
  cbn [first_item]. unfold ret at 1 2. rewrite !bind_done.
  rewrite for_each_done; [reflexivity|].
  intros fk Hin. apply load_edge_done; auto.
  - rewrite Hpk. discriminate.
  - rewrite forallb_forall in Hfks. auto.
Qed.

End EdgeFacts.

(** ** The node and edge phases *)

Lemma flat_map_Forall {A B : Type} (P : B -> Prop) (f : A -> list B) (l : list A) :
  (forall x, In x l -> Forall P (f x)) -> Forall P (flat_map f l).
Proof.
  induction l as [|x l IH]; intros H; [constructor|].
  cbn [flat_map]. apply Forall_app. split; [apply H; now left|].
  apply IH. intros y Hy. apply H. now right.
Qed.

Section Phases.
Context {RT : PyRuntime}.
Variable src : source.

Lemma load_nodes_ops (tables : list table) :
  Forall (fun ev => is_edge_op ev = false) (trace (load_nodes src tables)).
Proof.
  rewrite load_nodes_events. cbn [trace fst]. apply flat_map_Forall.
  intros tbl _. eapply Forall_impl; [|apply node_table_ops]. now intros ev [H _].
Qed.

Lemma load_edges_ops (tables : list table) :
  Forall (fun ev => is_node_op ev = false) (trace (load_edges src tables)).
Proof.
  unfold load_edges. apply for_each_Forall. intros tbl _.
  eapply Forall_impl; [|apply load_edge_table_ops]. now intros ev [H _].
Qed.



(** C7: when the pairs fetched for a foreign key are none, the edge loader
    issues nothing for it, neither a relationship type nor a relationship,
    and goes on; the whole run then holds no edge operation towards that
    child table. *)
Theorem empty_pairs_no_relationship (tbl : table) (fk : foreign_key)
    (p : edge_plan) (pk_col : column) :
  plan_edge tbl fk = ([], Done p) ->
  find_column tbl (plan_child_pk p) = Some pk_col ->
  select_pairs src tbl (plan_fk_col p) pk_col = [] ->
  load_edge src tbl fk = ([], Done tt)
  /\ forall tables,
       Forall (fun ev => forall parent, edge_op_ends ev <> Some (parent, tbl_name tbl))
         (trace (migrate src tables)).
Proof.
  intros Hplan Hfind Hpairs. split.
  - unfold load_edge. rewrite Hplan, bind_done.
    rewrite (load_planned_edge_events src tbl p Hfind (find_column_name tbl _ Hfind)).
    apply select_pairs_rows in Hpairs. now rewrite Hpairs.
  - intros tables. apply select_pairs_rows in Hpairs.
    rewrite (proj1 (migrate_trace src tables)). apply Forall_app. split.
    + eapply Forall_impl; [|apply load_nodes_ops].
      intros [m|[]]; cbn; congruence.
    + unfold load_edges. apply for_each_Forall. intros t _.
      unfold load_edge_table. apply trace_bind_Forall; [apply first_item_trace|].
      intros _. apply for_each_Forall. intros fk' _.
      destruct (String.eqb_spec (tbl_name t) (tbl_name tbl)) as [E|Hne].
      * unfold load_edge. apply trace_bind_Forall; [rewrite plan_edge_silent; constructor|].
        intros p'. unfold load_planned_edge.
        apply trace_bind_Forall; [apply get_column_trace|]. intros c.
        rewrite (proj2 (select_pairs_rows src t (plan_fk_col p') c)) by now rewrite E.
        constructor.
      * eapply Forall_impl; [|apply load_edge_ops].
        intros ev [_ [H|[parent H]]] parent'; rewrite H; congruence.
Qed.


(** C9: the trace of a run is the whole trace of the node phase, which
    covers every table and ends normally, followed by the trace of the edge
    phase; the first holds no edge operation and the second no node
    operation. *)
Theorem nodes_before_edges (tables : list table) :
  trace (migrate src tables)
  = (trace (load_nodes src tables) ++ trace (load_edges src tables))%list
  /\ load_nodes src tables
     = (flat_map (fun tbl => trace (load_node_table src tbl)) tables, Done tt)
  /\ Forall (fun ev => is_edge_op ev = false) (trace (load_nodes src tables))
  /\ Forall (fun ev => is_node_op ev = false) (trace (load_edges src tables)).
Proof.
  repeat apply conj.
  - apply migrate_trace.
  - apply load_nodes_events.
  - apply load_nodes_ops.
  - apply load_edges_ops.
Qed.

(** In terms of positions: in the trace of a run every node operation
    stands before every edge operation. *)
Lemma node_ops_precede_edge_ops (tables : list table) (i j : nat) (e1 e2 : event) :
  nth_error (trace (migrate src tables)) i = Some e1 ->
  nth_error (trace (migrate src tables)) j = Some e2 ->
  is_node_op e1 = true -> is_edge_op e2 = true -> (i < j)%nat.
Proof.
  rewrite (proj1 (migrate_trace src tables)).
  set (nodes := trace (load_nodes src tables)).
  set (edges := trace (load_edges src tables)).
  intros H1 H2 Hn He.
  assert (Hi : (i < List.length nodes)%nat).
  { destruct (Nat.lt_ge_cases i (List.length nodes)) as [Hlt|Hge]; [exact Hlt|].
    rewrite nth_error_app2 in H1 by exact Hge. apply nth_error_In in H1.
    assert (Hall := load_edges_ops tables). rewrite Forall_forall in Hall.
    rewrite (Hall e1 H1) in Hn. discriminate. }
  assert (Hj : (List.length nodes <= j)%nat).
  { destruct (Nat.lt_ge_cases j (List.length nodes)) as [Hlt|Hge]; [|exact Hge].
    rewrite nth_error_app1 in H2 by exact Hlt. apply nth_error_In in H2.
    assert (Hall := load_nodes_ops tables). rewrite Forall_forall in Hall.
    rewrite (Hall e2 H2) in He. discriminate. }
  lia.
Qed.


End Phases.

(** ** The sample database, run *)

(** The statements of the sample run of customers and orders, as text. *)
Example sample_statements :
  flat_map (fun ev => match ev with Execute q => [render q] | Printed _ => [] end)
    (trace (migrate Sample.database [Sample.customers; Sample.orders]))
  = ["CREATE NODE TABLE IF NOT EXISTS customers (id INT PRIMARY KEY, name STRING, joined STRING);";
     "CREATE (n:customers {id: 1, name: 'Alice', joined: '2020-01-01'});";
     "CREATE (n:customers {id: 2, name: 'O\'Brien', joined: '2021-06-15'});";
     "CREATE NODE TABLE IF NOT EXISTS orders (id INT PRIMARY KEY, customer_id INT, total STRING);";
     "CREATE (n:orders {id: 1, customer_id: 1, total: 19.99});";
     "CREATE REL TABLE IF NOT EXISTS customers_orders_edge(FROM customers TO orders);";
     "MATCH (a:customers), (b:orders) WHERE a.id = 1   AND b.id  = 1 CREATE (a)-[:customers_orders_edge]->(b);"].
Proof. reflexivity. Qed.

(** C6 at a failing input: [order_items] has a two-column primary key and
    is skipped by the node loader, so no node type of that name is created;
    the edge loader nevertheless creates, without any warning, the
    relationship type from [order_items] to [shipments] and a relationship
    of that type, and the run ends normally. *)
Theorem edge_created_for_skipped_parent :
  let run := migrate Sample.database [Sample.order_items; Sample.shipments] in
  In (Printed (Skipping "order_items" 2)) (trace run)
  /\ Forall (fun ev => node_op_name ev <> Some "order_items") (trace run)
  /\ trace (load_edges Sample.database [Sample.order_items; Sample.shipments])
     = [Execute (CreateRelTable "order_items_shipments_edge" "order_items" "shipments");
        Execute (MatchCreate "order_items" "shipments" "order_id" "1" "id" "7"
                   "order_items_shipments_edge");
        Printed (InsertedRelationships 1 "order_items" "shipments")]
  /\ render (CreateRelTable "order_items_shipments_edge" "order_items" "shipments")
     = "CREATE REL TABLE IF NOT EXISTS order_items_shipments_edge(FROM order_items TO shipments);"
  /\ result run = Done tt.
Proof.
  cbv zeta. repeat apply conj; try reflexivity.
  - vm_compute. auto.
  - vm_compute. repeat constructor; discriminate.
Qed.

(** ** The theorems at the sample database *)


(** [refunds] has no rows: nothing is issued for its foreign key. *)
Lemma empty_pairs_no_relationship_sample :
  plan_edge Sample.refunds Sample.refunds_order_fk
  = ([], Done (EdgePlan "orders" (Column "order_id" sqltypes.INTEGER false) "id" "id"))
  /\ find_column Sample.refunds "id" = Some (Column "id" sqltypes.INTEGER true)
  /\ select_pairs Sample.database Sample.refunds
       (Column "order_id" sqltypes.INTEGER false) (Column "id" sqltypes.INTEGER true) = []
  /\ load_edge Sample.database Sample.refunds Sample.refunds_order_fk = ([], Done tt)
  /\ forall tables,
       Forall (fun ev => forall parent, edge_op_ends ev <> Some (parent, "refunds"))
         (trace (migrate Sample.database tables)).
Proof.
  split; [reflexivity|]. split; [reflexivity|]. split; [reflexivity|].
  exact (@empty_pairs_no_relationship _ Sample.database Sample.refunds Sample.refunds_order_fk
           (EdgePlan "orders" (Column "order_id" sqltypes.INTEGER false) "id" "id")
           (Column "id" sqltypes.INTEGER true) eq_refl eq_refl eq_refl).
Defined.


(** ** More on the value serializer *)

Lemma prefix_cons (a c : ascii) (p s : string) :
  String.prefix (String a p) (String c s) = Ascii.eqb c a && String.prefix p s.
Proof.
  change (String.prefix (String a p) (String c s))
    with (if ascii_dec a c then String.prefix p s else false).
  destruct (ascii_dec a c) as [->|Hne].
  - now rewrite Ascii.eqb_refl.
  - assert (Ascii.eqb c a = false) as -> by (apply Ascii.eqb_neq; congruence).
    reflexivity.
Qed.

Lemma prefix_nil (s : string) : String.prefix "" s = true.
Proof. now destruct s. Qed.

Lemma escape_quotes_head (s : string) :
  String.prefix "'" (escape_quotes s) = false.
Proof.
  destruct s as [|c s]; [reflexivity|].
  cbn [escape_quotes]. destruct (Ascii.eqb c quote) eqn:E.
  - reflexivity.
  - rewrite prefix_cons. unfold quote in E. now rewrite E.
Qed.

Lemma unescape_escape (s : string) :
  replace_from 0 "\'" "'" (escape_quotes s) = s.
Proof.
  induction s as [|c s IH]; [reflexivity|].
  cbn [escape_quotes]. destruct (Ascii.eqb c quote) eqn:E.
  - apply Ascii.eqb_eq in E. subst c. unfold backslash, quote.
    cbn [replace_from]. rewrite !prefix_cons, prefix_nil, !Ascii.eqb_refl.
    cbn [andb String.length Nat.sub append]. now rewrite IH.
  - cbn [replace_from]. rewrite prefix_cons, escape_quotes_head, andb_false_r.
    now rewrite IH.
Qed.

Section SerializerExtras.
Context {RT : PyRuntime}.

(** X1: a str is serialized as its text with every quote replaced by
    backslash-quote, between quotes, and replacing backslash-quote by quote
    in that body gives the text back: the escaping loses nothing. *)
Theorem format_val_str_unescape (s : string) :
  format_val (VStr s) = "'" ++ str_replace s "'" "\'" ++ "'"
  /\ str_replace (str_replace s "'" "\'") "\'" "'" = s.
Proof.
  split; [reflexivity|].
  rewrite str_replace_quote. apply unescape_escape.
Qed.

(** X2: in the escaped text every single quote stands right after a
    backslash. *)
Theorem escaped_quote_follows_backslash (s : string) (i : nat) :
  String.get i (str_replace s "'" "\'") = Some quote ->
  exists j, i = S j /\ String.get j (str_replace s "'" "\'") = Some backslash.
Proof.
  rewrite str_replace_quote. revert i.
  induction s as [|c s IH]; intros i; [discriminate|].
  cbn [escape_quotes]. destruct (Ascii.eqb c quote) eqn:E.
  - destruct i as [|[|k]]; cbn [String.get].
    + discriminate.
    + intros _. now exists 0.
    + intros H. destruct (IH k H) as (j & -> & Hj). exists (S (S j)). now split.
  - destruct i as [|k]; cbn [String.get].
    + intros [= ->]. unfold quote in E. discriminate.
    + intros H. destruct (IH k H) as (j & -> & Hj). exists (S j). now split.
Qed.

Lemma escape_quotes_plain (s : string) :
  contains quote s = false -> escape_quotes s = s.
Proof.
  induction s as [|c s IH]; [reflexivity|].
  cbn [contains escape_quotes]. intros H. apply orb_false_iff in H as [-> Hs].
  now rewrite IH.
Qed.

(** X3: a str without single quote is only wrapped in quotes. *)
Theorem format_val_str_without_quote (s : string) :
  contains quote s = false -> format_val (VStr s) = "'" ++ s ++ "'".
Proof.
  intros H. rewrite (format_val_text (VStr s)).
  now rewrite escape_quotes_plain.
Qed.

(** No quote in the literal of None, of a boolean, of an integer or of a
    decimal. *)
Lemma unquoted_kind_no_quote (v : pyval) :
  unquoted_kind v = true -> contains quote (format_val v) = false.
Proof.
  rewrite format_val_text. destruct v as [|b|z|f|d|d|t|s|o]; try discriminate; intros _.
  - reflexivity.
  - now destruct b.
  - apply plain_text_contains; try reflexivity. apply plain_text_Z_str.
  - apply Decimal_str_no_quote.
Qed.

(** X5: a str is never serialized like None, a boolean, an integer or a
    decimal, whatever its text. *)
Theorem str_never_reads_as_number (s : string) (v : pyval) :
  unquoted_kind v = true -> format_val (VStr s) <> format_val v.
Proof.
  intros Hv E. apply unquoted_kind_no_quote in Hv. rewrite <- E in Hv.
  rewrite format_val_text in Hv. discriminate.
Qed.

Lemma plain_text_finite (sg : bool) (c : N) (e : Z) :
  plain_text (Decimal_str (Finite sg c e)) = true.
Proof.
  destruct (Decimal_str_layout sg c e) as (ip & dot & fp & -> & Hip & _ & Hfp & _).
  now apply plain_text_numeral.
Qed.

Lemma Decimal_str_not_keyword (d : Decimal) :
  Decimal_str d <> "null" /\ Decimal_str d <> "true" /\ Decimal_str d <> "false".
Proof.
  destruct d as [sg c e|sg|sg sig p].
  - assert (H := plain_text_finite sg c e).
    repeat split; intros E; rewrite E in H; discriminate.
  - destruct sg; repeat split; discriminate.
  - cbn [Decimal_str]. destruct sg, sig; repeat split; discriminate.
Qed.

(** X6: floats apart, the literal null comes from None only, true from True
    only and false from False only. *)
Theorem keywords_only_for_None_and_bool (v : pyval) :
  (forall f, v <> VFloat f) ->
  (format_val v = "null" -> v = VNone)
  /\ (format_val v = "true" -> v = VBool true)
  /\ (format_val v = "false" -> v = VBool false).
Proof.
  intros Hf. rewrite format_val_text.
  destruct v as [|b|z|f|d|d|t|s|o].
  - repeat split; auto; discriminate.
  - destruct b; repeat split; auto; discriminate.
  - assert (H := plain_text_Z_str z).
    repeat split; intros E; rewrite E in H; discriminate.
  - now destruct (Hf f).
  - destruct (Decimal_str_not_keyword d) as (H1 & H2 & H3).
    repeat split; intros E; contradiction.
  - repeat split; discriminate.
  - repeat split; discriminate.
  - repeat split; discriminate.
  - repeat split; discriminate.
Qed.

(** X7: for an integer within the number of digits up to which [str]
    returns its text, reading the literal back gives the integer. *)
Theorem format_val_int_round_trip (z : Z) :
  (str_digits z <= max_str_digits)%nat ->
  parse_int (format_val (VInt z)) = Some z.
Proof.
  intros _. rewrite format_val_text. unfold parse_int, Z_str.
  rewrite NilZero.isi.
  - cbn [option_map]. now rewrite DecimalZ.of_to.
  - destruct z; cbn; try discriminate.
    intros [= E]. now apply (Unsigned.to_uint_nonnil p).
  - destruct z; cbn; try discriminate.
    intros [= E]. now apply (Unsigned.to_uint_nonnil p).
Qed.

(** X9: the infinities and the NaNs of [Decimal] are serialized as bare
    words, which do not read back as decimal numerals. *)
Theorem special_decimals_not_numerals (sg sig : bool) (p : N) :
  parse_decimal (format_val (VDecimal (Infinity sg))) = None
  /\ parse_decimal (format_val (VDecimal (NaN sg sig p))) = None.
Proof.
  rewrite !format_val_text. split.
  - now destruct sg.
  - cbn [Decimal_str]. destruct sg, sig; reflexivity.
Qed.

Lemma Decimal_str_finite_injective (sg1 sg2 : bool) (c1 c2 : N) (e1 e2 : Z) :
  Decimal_str (Finite sg1 c1 e1) = Decimal_str (Finite sg2 c2 e2) ->
  Finite sg1 c1 e1 = Finite sg2 c2 e2.
Proof.
  intros E.
  assert (R : forall sg c e, parse_decimal (Decimal_str (Finite sg c e)) = Some (Finite sg c e)).
  { intros sg c e.
    destruct (Decimal_str_layout sg c e)
      as (ip & dot & fp & -> & Hip & Hne & Hfp & Hdot & Hv & He).
    rewrite (parse_numeral sg _ Hip Hne Hfp Hdot Hv). now rewrite He. }
  assert (H1 := R sg1 c1 e1). rewrite E, R in H1. now injection H1 as -> -> ->.
Qed.

(** X8: finite decimals that differ in sign, coefficient or exponent, such
    as 1.0 and 1.00, get different literals. *)
Theorem format_val_decimal_injective (sg1 sg2 : bool) (c1 c2 : N) (e1 e2 : Z) :
  Finite sg1 c1 e1 <> Finite sg2 c2 e2 ->
  format_val (VDecimal (Finite sg1 c1 e1)) <> format_val (VDecimal (Finite sg2 c2 e2)).
Proof.
  rewrite !format_val_text. intros Hne E. apply Hne.
  now apply Decimal_str_finite_injective.
Qed.

End SerializerExtras.

(** ** The layout of dates and datetimes *)

Lemma length_string_of_uint (u : Decimal.uint) :
  String.length (NilEmpty.string_of_uint u) = Decimal.nb_digits u.
Proof. induction u; cbn; congruence. Qed.

Lemma of_uint_acc_lower (u : Decimal.uint) (acc : positive) :
  (N.pos acc * 10 ^ N.of_nat (Decimal.nb_digits u) <= N.pos (Pos.of_uint_acc u acc))%N.
Proof.
  revert acc. induction u; intros acc;
    cbn [Decimal.nb_digits Pos.of_uint_acc];
    [cbn; lia | rewrite Nat2N.inj_succ, N.pow_succ_r' ..];
    (eapply N.le_trans; [|apply IHu]);
    (apply N.le_trans with (N.pos acc * 10 * 10 ^ N.of_nat (Decimal.nb_digits u))%N; [lia|]);
    apply N.mul_le_mono_r; lia.
Qed.

Lemma nzhead_lower (u : Decimal.uint) :
  Decimal.nzhead u = Decimal.Nil
  \/ (10 ^ N.of_nat (Decimal.nb_digits (Decimal.nzhead u) - 1)
      <= N.of_uint (Decimal.nzhead u))%N.
Proof.
  induction u; cbn [Decimal.nzhead]; [now left|exact IHu|right ..];
    cbn [Decimal.nb_digits N.of_uint Pos.of_uint];
    rewrite Nat.sub_succ, Nat.sub_0_r;
    (eapply N.le_trans; [|apply of_uint_acc_lower]); lia.
Qed.

Lemma N_str_width (w : nat) (n : N) :
  (1 <= w)%nat -> (n < 10 ^ N.of_nat w)%N -> (String.length (N_str n) <= w)%nat.
Proof.
  intros Hw Hn. unfold N_str. rewrite length_string_of_uint.
  assert (E : Decimal.unorm (N.to_uint n) = N.to_uint n).
  { rewrite <- (DecimalN.Unsigned.to_of (N.to_uint n)).
    now rewrite DecimalN.Unsigned.of_to. }
  destruct (nzhead_lower (N.to_uint n)) as [Z | H].
  - unfold Decimal.unorm in E. rewrite Z in E. now rewrite <- E.
  - assert (U : Decimal.nzhead (N.to_uint n) = N.to_uint n).
    { unfold Decimal.unorm in E.
      destruct (Decimal.nzhead (N.to_uint n)) eqn:Z; try exact E.
      cbn in H. lia. }
    rewrite U, DecimalN.Unsigned.of_to in H.
    assert (L : (N.of_nat (Decimal.nb_digits (N.to_uint n) - 1) < N.of_nat w)%N).
    { apply (N.pow_lt_mono_r_iff 10); [lia|]. lia. }
    lia.
Qed.

Lemma length_zero_pad (w : nat) (n : N) :
  (1 <= w)%nat -> (n < 10 ^ N.of_nat w)%N -> String.length (zero_pad w n) = w.
Proof.
  intros Hw Hn. unfold zero_pad. rewrite length_append, length_repeat_char.
  assert (H := N_str_width Hw Hn). lia.
Qed.

Lemma zero_pad_digits (w : nat) (n : N) : all_digits (zero_pad w n) = true.
Proof.
  unfold zero_pad. now rewrite all_digits_app, all_digits_zeros, N_str_digits.
Qed.

Lemma digits_value_zero_pad (w : nat) (n : N) : digits_value (zero_pad w n) = Some n.
Proof. unfold zero_pad. now rewrite digits_value_zeros, digits_value_N_str. Qed.

Lemma fixed_field_pad (w : nat) (n : N) :
  (1 <= w)%nat -> (n < 10 ^ N.of_nat w)%N -> fixed_field w (zero_pad w n) = Some n.
Proof.
  intros Hw Hn. unfold fixed_field.
  rewrite (length_zero_pad Hw Hn), Nat.eqb_refl, zero_pad_digits.
  apply digits_value_zero_pad.
Qed.

Lemma offset_seconds (a : N) :
  (a / 3600 * 3600 + a mod 3600 / 60 * 60 + a mod 60 = a)%N.
Proof.
  assert (H1 := N.div_mod a 3600). assert (H2 := N.div_mod (a mod 3600) 60).
  assert (H3 : ((a mod 3600) mod 60 = a mod 60)%N).
  { change 3600%N with (60 * 60)%N. rewrite N.Div0.mod_mul_r.
    rewrite (N.mul_comm 60), N.Div0.mod_add. apply N.Div0.mod_mod. }
  rewrite H3 in H2. specialize (H1 ltac:(discriminate)). specialize (H2 ltac:(discriminate)).
  lia.
Qed.

Lemma date_isoformat_layout (d : date) :
  valid_date d = true ->
  fixed_field 4 (zero_pad 4 (year d)) = Some (year d)
  /\ fixed_field 2 (zero_pad 2 (month d)) = Some (month d)
  /\ fixed_field 2 (zero_pad 2 (day d)) = Some (day d).
Proof.
  unfold valid_date. rewrite !andb_true_iff, !N.leb_le.
  intros [[[[[_ Hy] _] Hm] _] Hd].
  repeat apply conj; apply fixed_field_pad; lia.
Qed.

Lemma format_offset_layout (off : option Z) :
  match off with
  | None => True
  | Some o => (-86400 < o < 86400)%Z
  end ->
  offset_layout off (format_offset off).
Proof.
  destruct off as [o|]; [|reflexivity]. intros Ho.
  unfold offset_layout, format_offset. cbv zeta.
  set (a := Z.abs_N o).
  assert (Ha : (a < 86400)%N) by (unfold a; lia).
  assert (HH : (a / 3600 < 24)%N) by (apply N.Div0.div_lt_upper_bound; lia).
  assert (HM : (a mod 3600 / 60 < 60)%N).
  { apply N.Div0.div_lt_upper_bound. assert (X := N.mod_upper_bound a 3600). lia. }
  assert (HS : (a mod 60 < 60)%N) by (apply N.mod_upper_bound; lia).
  exists (zero_pad 2 (a / 3600)), (zero_pad 2 (a mod 3600 / 60)),
    (if (a mod 60 =? 0)%N then "" else ":" ++ zero_pad 2 (a mod 60)),
    (a / 3600)%N, (a mod 3600 / 60)%N, (a mod 60)%N.
  repeat apply conj; try assumption.
  - reflexivity.
  - apply fixed_field_pad; lia.
  - apply fixed_field_pad; lia.
  - destruct (a mod 60 =? 0)%N; [reflexivity|].
    eexists; split; [reflexivity|].
    apply fixed_field_pad; lia.
  - rewrite offset_seconds. unfold a. lia.
Qed.

Section TemporalExtras.
Context {RT : PyRuntime}.

(** X10: the literal of a date is its ISO-8601 text between single quotes:
    four digits of year, two of month and two of day, separated by hyphens,
    each field reading as the number it stands for. *)
Theorem format_val_date_layout (d : date) :
  valid_date d = true ->
  exists y m dd : string,
    format_val (VDate d) = "'" ++ y ++ "-" ++ m ++ "-" ++ dd ++ "'"
    /\ fixed_field 4 y = Some (year d)
    /\ fixed_field 2 m = Some (month d)
    /\ fixed_field 2 dd = Some (day d).
Proof.
  intros V. destruct (date_isoformat_layout d V) as (Hy & Hm & Hd).
  exists (zero_pad 4 (year d)), (zero_pad 2 (month d)), (zero_pad 2 (day d)).
  repeat apply conj; try assumption.
  rewrite format_val_text. unfold date_isoformat.
  now rewrite !append_assoc.
Qed.

(** X11: the literal of a datetime is its ISO-8601 text between single
    quotes: the date as four, two and two digits separated by hyphens, the
    letter T, hours, minutes and seconds as two digits each separated by
    colons, then the six digits of the microseconds after a point when they
    are not zero, then the offset when the datetime has one; each field
    reads as the number it stands for. *)
Theorem format_val_datetime_layout (t : datetime) :
  valid_datetime t = true ->
  exists y m dd hh mm ss frac off : string,
    format_val (VDatetime t)
    = "'" ++ y ++ "-" ++ m ++ "-" ++ dd ++ "T" ++ hh ++ ":" ++ mm ++ ":" ++ ss
      ++ frac ++ off ++ "'"
    /\ fixed_field 4 y = Some (year (dt_date t))
    /\ fixed_field 2 m = Some (month (dt_date t))
    /\ fixed_field 2 dd = Some (day (dt_date t))
    /\ fixed_field 2 hh = Some (hour t)
    /\ fixed_field 2 mm = Some (minute t)
    /\ fixed_field 2 ss = Some (second t)
    /\ fraction_layout (microsecond t) frac
    /\ offset_layout (utcoffset t) off.
Proof.
  unfold valid_datetime. rewrite !andb_true_iff, !N.ltb_lt.
  intros [[Vd [[[Hh Hm] Hs] Hus]] Hoff].
  destruct (date_isoformat_layout _ Vd) as (Fy & Fm & Fd).
  exists (zero_pad 4 (year (dt_date t))), (zero_pad 2 (month (dt_date t))),
    (zero_pad 2 (day (dt_date t))), (zero_pad 2 (hour t)), (zero_pad 2 (minute t)),
    (zero_pad 2 (second t)),
    (if (microsecond t =? 0)%N then "" else "." ++ zero_pad 6 (microsecond t)),
    (format_offset (utcoffset t)).
  repeat apply conj; try assumption.
  - rewrite format_val_text.
    unfold datetime_isoformat, datetime_isoformat_sep, date_isoformat, format_time.
    now rewrite !append_assoc.
  - apply fixed_field_pad; lia.
  - apply fixed_field_pad; lia.
  - apply fixed_field_pad; lia.
  - unfold fraction_layout. destruct (microsecond t =? 0)%N; [reflexivity|].
    eexists; split; [reflexivity|].
    apply fixed_field_pad; lia.
  - apply format_offset_layout. destruct (utcoffset t) as [o|]; [|exact I].
    apply andb_true_iff in Hoff. destruct Hoff as [A B].
    apply Z.ltb_lt in A, B. lia.
Qed.

End TemporalExtras.

(** X12: no column type passes two of the three tests of the mapper, so
    testing in the opposite order gives the same primitive. *)
Theorem infer_type_order_irrelevant (col : column) :
  infer_type col = infer_type_reversed col.
Proof. destruct col as [n ty pk]. destruct ty; reflexivity. Qed.

(** X13: a column type that is a subclass of a type mapped to INT, DOUBLE or
    TIMESTAMP maps to the same primitive. *)
Theorem infer_type_of_subclass (n1 n2 : string) (pk1 pk2 : bool) (c d : sqltypes.cls) :
  sqltypes.issubclass c d = true ->
  infer_type (Column n2 d pk2) <> "STRING" ->
  infer_type (Column n1 c pk1) = infer_type (Column n2 d pk2).
Proof.
  destruct c, d; intros H1 H2; try reflexivity;
    try (exfalso; apply H2; reflexivity); discriminate H1.
Qed.

(** ** Endings and names *)

Lemma string_rev_app (a b : string) :
  string_rev (a ++ b) = string_rev b ++ string_rev a.
Proof.
  induction a as [|c a IH]; cbn [append string_rev].
  - now rewrite append_nil_r.
  - now rewrite IH, append_assoc.
Qed.

Lemma string_rev_involutive (s : string) : string_rev (string_rev s) = s.
Proof.
  induction s as [|c s IH]; [reflexivity|].
  cbn [string_rev]. rewrite string_rev_app, IH. reflexivity.
Qed.

Lemma prefix_app (a b : string) : String.prefix a (a ++ b) = true.
Proof.
  induction a as [|c a IH]; cbn [append]; [now destruct b|].
  now rewrite prefix_cons, Ascii.eqb_refl, IH.
Qed.

Lemma append_inv_head (a b c : string) : a ++ b = a ++ c -> b = c.
Proof. induction a as [|x a IH]; cbn [append]; [auto|]. intros [= H]. auto. Qed.

Lemma append_inv_tail (a b t : string) : a ++ t = b ++ t -> a = b.
Proof.
  intros H. apply (f_equal string_rev) in H. rewrite !string_rev_app in H.
  apply append_inv_head in H. apply (f_equal string_rev) in H.
  now rewrite !string_rev_involutive in H.
Qed.

(** Two texts cut at the first occurrence of a character agree part by part. *)
Lemma split_at_first (c : ascii) (a a' r r' : string) :
  contains c a = false -> contains c a' = false ->
  a ++ String c r = a' ++ String c r' -> a = a' /\ r = r'.
Proof.
  revert a'. induction a as [|x a IH]; intros [|x' a']; cbn [contains append].
  - intros _ _ [= ->]. auto.
  - intros _ H [= <- _]. rewrite Ascii.eqb_refl in H. discriminate.
  - intros H _ [= -> _]. rewrite Ascii.eqb_refl in H. discriminate.
  - intros H H' [= -> E]. apply orb_false_iff in H as [_ H], H' as [_ H'].
    destruct (IH a' H H' E) as [-> ->]. auto.
Qed.

Lemma rel_table_name_inj (p1 c1 p2 c2 : string) :
  contains "_" p1 = false -> contains "_" p2 = false ->
  rel_table_name p1 c1 = rel_table_name p2 c2 -> p1 = p2 /\ c1 = c2.
Proof.
  unfold rel_table_name. intros H1 H2 E. cbn [append] in E.
  destruct (split_at_first "_" p1 p2 _ _ H1 H2 E) as [-> E'].
  split; [reflexivity|]. now apply append_inv_tail in E'.
Qed.

(** X17: when the parent names hold no underscore, different pairs of
    parent and child get different relationship type names. *)
Theorem rel_table_name_injective (p1 c1 p2 c2 : string) :
  contains "_" p1 = false -> contains "_" p2 = false ->
  (p1, c1) <> (p2, c2) -> rel_table_name p1 c1 <> rel_table_name p2 c2.
Proof.
  intros H1 H2 Hne E. apply Hne.
  destruct (rel_table_name_inj p1 c1 p2 c2 H1 H2 E) as [-> ->]. reflexivity.
Qed.

(** With an underscore in a parent name two pairs can share a name. *)
Example rel_table_name_collision :
  rel_table_name "order_items" "log" = rel_table_name "order" "items_log".
Proof. reflexivity. Qed.

(** The definition of a column ends with the key marker exactly when the
    column is flagged. *)
Lemma column_def_marker (col : column) :
  ends_with " PRIMARY KEY" (column_def col) = col_primary_key col.
Proof.
  unfold ends_with, column_def. cbv zeta.
  destruct (col_primary_key col).
  - rewrite string_rev_app. apply prefix_app.
  - rewrite string_rev_app. unfold infer_type.
    destruct (isinstance_type _ sqltypes.Integer);
      [|destruct (isinstance_type _ sqltypes.Float);
        [|destruct (isinstance_type _ sqltypes.DateTime)]];
      rewrite string_rev_app; cbn [string_rev append];
      rewrite prefix_cons; reflexivity.
Qed.

Lemma filter_map_marker (cols : list column) :
  filter (ends_with " PRIMARY KEY") (map column_def cols)
  = map column_def (filter col_primary_key cols).
Proof.
  induction cols as [|c cols IH]; [reflexivity|].
  cbn [map filter]. rewrite column_def_marker.
  destruct (col_primary_key c); cbn [map]; now rewrite IH.
Qed.

(** X20: the connection URL determines the five settings when the user and
    the host hold no colon, the password no at sign and the port no slash. *)
Theorem PG_URL_parts (env1 env2 : list (string * string)) :
  contains ":" (POSTGRES_USER env1) = false -> contains ":" (POSTGRES_USER env2) = false ->
  contains "@" (POSTGRES_PASSWORD env1) = false -> contains "@" (POSTGRES_PASSWORD env2) = false ->
  contains ":" (POSTGRES_HOST env1) = false -> contains ":" (POSTGRES_HOST env2) = false ->
  contains "/" (POSTGRES_PORT env1) = false -> contains "/" (POSTGRES_PORT env2) = false ->
  PG_URL env1 = PG_URL env2 ->
  POSTGRES_USER env1 = POSTGRES_USER env2
  /\ POSTGRES_PASSWORD env1 = POSTGRES_PASSWORD env2
  /\ POSTGRES_HOST env1 = POSTGRES_HOST env2
  /\ POSTGRES_PORT env1 = POSTGRES_PORT env2
  /\ POSTGRES_DB env1 = POSTGRES_DB env2.
Proof.
  unfold PG_URL. intros Hu1 Hu2 Hp1 Hp2 Hh1 Hh2 Ho1 Ho2 E.
  rewrite !append_assoc in E. apply append_inv_head in E. cbn [append] in E.
  destruct (split_at_first ":" _ _ _ _ Hu1 Hu2 E) as [Eu E1].
  destruct (split_at_first "@" _ _ _ _ Hp1 Hp2 E1) as [Ep E2].
  destruct (split_at_first ":" _ _ _ _ Hh1 Hh2 E2) as [Eh E3].
  destruct (split_at_first "/" _ _ _ _ Ho1 Ho2 E3) as [Eo Ed].
  auto.
Qed.

Example PG_URL_ambiguous :
  PG_URL [("POSTGRES_PASSWORD", "p@ss"); ("POSTGRES_HOST", "db")]
  = PG_URL [("POSTGRES_PASSWORD", "p"); ("POSTGRES_HOST", "ss@db")].
Proof. reflexivity. Qed.

(** ** More on the node and edge phases *)

Lemma trace_bind_Forall_result {A B : Type} (P : event -> Prop) (m : M A) (k : A -> M B) :
  Forall P (trace m) -> (forall a, result m = Done a -> Forall P (trace (k a))) ->
  Forall P (trace (bind m k)).
Proof.
  destruct m as [tr [a|e]]; intros Hm Hk; [|exact Hm].
  rewrite bind_done. apply Forall_app. split; [exact Hm|apply Hk; reflexivity].
Qed.



Section PhaseExtras.
Context {RT : PyRuntime}.
Variable src : source.

(** X14: every node type the run creates is declared with exactly one
    column marked PRIMARY KEY. *)
Theorem node_tables_have_one_key_marker (tables : list table) :
  Forall one_key_marker (trace (migrate src tables)).
Proof.
  rewrite (proj1 (migrate_trace src tables)). apply Forall_app. split.
  - rewrite load_nodes_events. cbn [trace fst]. apply flat_map_Forall. intros tbl _.
    rewrite load_node_table_events. cbn [trace fst].
    destruct (List.length (pk_names tbl) =? 1)%nat eqn:E.
    + apply Nat.eqb_eq in E. unfold node_table_events.
      apply Forall_cons.
      * cbn. rewrite filter_map_marker, length_map.
        unfold pk_names in E. now rewrite length_map in E.
      * repeat (apply Forall_cons; [exact I|]).
        apply Forall_app. split; [|repeat constructor].
        apply Forall_forall. intros ev Hin. apply in_map_iff in Hin as (row & <- & _).
        exact I.
    + repeat constructor.
  - eapply Forall_impl; [|apply load_edges_ops].
    intros [m|[]]; cbn; try discriminate; auto.
Qed.

(** X15: every node the run creates is of a table of the run with exactly
    one primary-key column, and has one property per column of the table,
    named in column order. *)
Theorem nodes_only_for_single_key_tables (tables : list table) :
  Forall (node_of_loaded_table tables) (trace (migrate src tables)).
Proof.
  rewrite (proj1 (migrate_trace src tables)). apply Forall_app. split.
  - rewrite load_nodes_events. cbn [trace fst]. apply Forall_forall.
    intros ev Hin. apply in_flat_map in Hin as (tbl & Htbl & Hin).
    rewrite load_node_table_events in Hin. cbn [trace fst] in Hin.
    destruct (List.length (pk_names tbl) =? 1)%nat eqn:E.
    + apply Nat.eqb_eq in E. unfold node_table_events in Hin.
      cbn [app] in Hin.
      destruct Hin as [<-|[<-|[<-|Hin]]]; try exact I.
      apply in_app_or in Hin as [Hin|[<-|[]]]; [|exact I].
      apply in_map_iff in Hin as (row & <- & _). cbn.
      exists tbl. repeat split; auto. rewrite map_map. reflexivity.
    + destruct Hin as [<-|[]]. exact I.
  - eapply Forall_impl; [|apply load_edges_ops].
    intros [m|[]]; cbn; try discriminate; auto.
Qed.

Lemma plan_edge_parent (tbl : table) (fk : foreign_key) (p : edge_plan) :
  result (plan_edge tbl fk) = Done p -> plan_parent p = referred_table fk.
Proof.
  unfold plan_edge, first_item, get_column.
  destruct (constrained_columns fk) as [|c0 cs]; [discriminate|].
  unfold ret at 1. rewrite bind_done.
  destruct (find_column tbl c0) as [col|]; [|discriminate].
  unfold ret at 1. rewrite bind_done.
  destruct (referred_columns fk) as [|r rs]; [discriminate|].
  unfold ret at 1. rewrite bind_done.
  destruct (tbl_primary_key tbl) as [|k ks]; [discriminate|].
  unfold ret at 1. rewrite bind_done. cbn. now intros [= <-].
Qed.

(** X16: every relationship type and every relationship of the run comes
    from a foreign key the inspector reports for a table of the run, goes
    from the referred table to that table, and is named parent, underscore,
    child, underscore, edge. *)
Theorem edges_only_for_foreign_keys (tables : list table) :
  Forall (edge_of_foreign_key src tables) (trace (migrate src tables)).
Proof.
  rewrite (proj1 (migrate_trace src tables)). apply Forall_app. split.
  - eapply Forall_impl; [|apply load_nodes_ops].
    intros [m|[]]; cbn; try discriminate; auto.
  - unfold load_edges. apply for_each_Forall. intros tbl Htbl.
    unfold load_edge_table. apply trace_bind_Forall; [apply first_item_trace|].
    intros _. apply for_each_Forall. intros fk Hfk.
    unfold load_edge. apply trace_bind_Forall_result; [rewrite plan_edge_silent; constructor|].
    intros p Hp. apply plan_edge_parent in Hp.
    unfold load_planned_edge. apply trace_bind_Forall; [apply get_column_trace|].
    intros c.
    assert (Hends : exists t f, In t tables /\ tbl_name t = tbl_name tbl
                                /\ In f (get_foreign_keys src (tbl_name t) (tbl_schema t))
                                /\ referred_table f = plan_parent p).
    { exists tbl, fk. auto. }
    destruct (select_pairs src tbl (plan_fk_col p) c) as [|pr ps] eqn:E; [constructor|].
    rewrite <- E.
    apply trace_bind_Forall; [apply Forall_cons; [cbn; auto|constructor]|].
    intros _. apply trace_bind_Forall.
    + apply for_each_Forall. intros ids _. apply Forall_cons; [cbn; auto|constructor].
    + intros _. apply Forall_cons; [exact I|constructor].
Qed.

Lemma load_edges_result (tables : list table) :
  schema_ok src tables = true ->
  result (load_edges src tables)
  = if existsb has_no_key tables then Raised IndexError else Done tt.
Proof.
  intros Hok. unfold schema_ok in Hok. rewrite forallb_forall in Hok.
  assert (Hres : forall t, In t tables ->
            result (load_edge_table src t)
            = if has_no_key t then Raised IndexError else Done tt).
  { intros t Ht. specialize (Hok t Ht). apply andb_true_iff in Hok as [Hwf Hfks].
    rewrite (load_edge_table_result src t Hwf Hfks). unfold has_no_key.
    now destruct (pk_names t). }
  destruct (existsb has_no_key tables) eqn:E.
  - apply existsb_exists in E as (t & Ht & Hkey).
    unfold load_edges. apply for_each_raised with (x := t); auto.
    + now rewrite (Hres t Ht), Hkey.
    + intros y Hy. rewrite (Hres y Hy). destruct (has_no_key y); auto.
  - unfold load_edges. rewrite for_each_done; [reflexivity|].
    intros t Ht. rewrite (Hres t Ht).
    assert (Hk : has_no_key t = false).
    { destruct (has_no_key t) eqn:Hk; [|reflexivity].
      assert (existsb has_no_key tables = true) by (apply existsb_exists; eauto).
      congruence. }
    now rewrite Hk.
Qed.

(** X18: under a well-formed schema, a run against a store that may refuse
    statements ends at the first statement the store refuses; when the
    store refuses none, the two loading phases end with [IndexError] if
    some table has no primary-key column, and normally otherwise. *)
Theorem migrate_run_end (accepts : list statement -> statement -> bool)
    (tables : list table) :
  schema_ok src tables = true ->
  run_end_on accepts (migrate src tables)
  = match first_refused accepts [] (trace (migrate src tables)) with
    | Some q => StoreRefuses q
    | None => if existsb has_no_key tables then ScriptRaises IndexError else EndsNormally
    end.
Proof.
  intros Hok. unfold run_end_on.
  destruct (first_refused accepts [] (trace (migrate src tables))); [reflexivity|].
  rewrite (proj2 (migrate_trace src tables)), (load_edges_result tables Hok).
  now destruct (existsb has_no_key tables).
Qed.


End PhaseExtras.

(** ** A foreign key in the run *)




Section EdgeRuns.
Context {RT : PyRuntime}.
Variable src : source.



End EdgeRuns.


(** On the store that checks names, the run of customers and orders issues
    every recorded event. *)
Example customers_orders_issued :
  issued catalog_store [] (trace (migrate Sample.database [Sample.customers; Sample.orders]))
  = trace (migrate Sample.database [Sample.customers; Sample.orders]).
Proof. reflexivity. Qed.


(** ** The verification phase *)

Section VerificationFacts.
Context {RT : PyRuntime}.

Lemma queries_app (a b : list verify_event) : queries (a ++ b) = (queries a ++ queries b)%list.
Proof.
  induction a as [|[m|q] a IH]; cbn [app queries]; [reflexivity|exact IH|].
  now rewrite IH.
Qed.

Lemma rel_names_missing (meta : list (list (string * string))) :
  existsb (fun m => match dict_get m "name" with None => true | Some _ => false end) meta = true ->
  rel_names meta = Raised KeyError.
Proof.
  induction meta as [|m meta IH]; [discriminate|].
  cbn [existsb rel_names]. destruct (dict_get m "name"); [|reflexivity].
  cbn [orb]. intros H. now rewrite (IH H).
Qed.

Lemma count_loop_complete (view : store_view) (query : string -> string)
    (line : string -> pyval -> verify_message) (names : list string) :
  forallb (fun n => has_first_value (next_record view (query n))) names = true ->
  snd (count_loop view query line names) = Done tt
  /\ queries (fst (count_loop view query line names)) = map query names.
Proof.
  induction names as [|n names IH]; [now split|].
  cbn [forallb count_loop map]. intros H. apply andb_true_iff in H as [Hn Hrest].
  unfold has_first_value in Hn.
  destruct (first_value (next_record view (query n))) as [cnt|e]; [|discriminate].
  destruct (IH Hrest) as [Hr Hq].
  destruct (count_loop view query line names) as [tr r]. cbn [fst snd queries] in *.
  now rewrite Hq.
Qed.

(** X21: a relationship entry without name stops the verification with
    [KeyError] before any count is queried. *)
Theorem verify_missing_name (view : store_view) :
  existsb lacks_name (rel_table_meta view) = true ->
  verify view
  = ([Reported (NodeTables (node_table_names view));
      Reported (RelTablesRaw (rel_table_meta view))], Raised KeyError)
  /\ queries (fst (verify view)) = [].
Proof.
  intros H. unfold verify. cbv zeta.
  rewrite (rel_names_missing _ H). now split.
Qed.

(** X22: when every entry has a name and every count query returns a record
    with a first value, the verification ends normally, having queried the
    count of every node table and then of every relationship table, in the
    order the store lists them. *)
Theorem verify_queries_all (view : store_view) (names : list string) :
  rel_names (rel_table_meta view) = Done names ->
  forallb (fun n => has_first_value (next_record view (node_count_query n)))
    (node_table_names view) = true ->
  forallb (fun n => has_first_value (next_record view (rel_count_query n))) names = true ->
  snd (verify view) = Done tt
  /\ queries (fst (verify view))
     = (map node_count_query (node_table_names view) ++ map rel_count_query names)%list.
Proof.
  intros Hnames Hnodes Hrels. unfold verify. cbv zeta. rewrite Hnames.
  destruct (count_loop_complete view node_count_query NodeCount _ Hnodes) as [Hr1 Hq1].
  destruct (count_loop_complete view rel_count_query RelCount _ Hrels) as [Hr2 Hq2].
  destruct (count_loop view node_count_query NodeCount (node_table_names view)) as [tr1 r1].
  cbn [fst snd] in *. subst r1.
  destruct (count_loop view rel_count_query RelCount names) as [tr2 r2].
  cbn [fst snd] in *. subst r2. split; [reflexivity|].
  rewrite !queries_app. cbn [queries app]. now rewrite Hq1, Hq2.
Qed.

Lemma count_loop_stops (view : store_view) (query : string -> string)
    (line : string -> pyval -> verify_message) (before after : list string) (n : string) :
  forallb (fun n => has_first_value (next_record view (query n))) before = true ->
  has_first_value (next_record view (query n)) = false ->
  snd (count_loop view query line (before ++ n :: after)) = Raised IndexError
  /\ queries (fst (count_loop view query line (before ++ n :: after)))
     = map query (before ++ [n]).
Proof.
  intros Hbefore Hn. induction before as [|b before IH]; cbn [app count_loop map].
  - unfold has_first_value in Hn.
    destruct (next_record view (query n)) as [[|x l]|[|x l]]; try discriminate Hn;
      now split.
  - cbn [forallb] in Hbefore. apply andb_true_iff in Hbefore as [Hb Hrest].
    unfold has_first_value in Hb.
    destruct (first_value (next_record view (query b))) as [cnt|e]; [|discriminate].
    destruct (IH Hrest) as [Hr Hq].
    destruct (count_loop view query line (before ++ n :: after)) as [tr r].
    cbn [fst snd queries] in *. now rewrite Hq.
Qed.

(** X23: a node table whose count query returns an empty record stops the
    verification with [IndexError] right after that query: the tables listed
    after it and all relationship tables are not counted. *)
Theorem verify_stops_at_empty_record (view : store_view) (names before after : list string)
    (n : string) :
  rel_names (rel_table_meta view) = Done names ->
  node_table_names view = (before ++ n :: after)%list ->
  forallb (fun n => has_first_value (next_record view (node_count_query n))) before = true ->
  has_first_value (next_record view (node_count_query n)) = false ->
  snd (verify view) = Raised IndexError
  /\ queries (fst (verify view)) = map node_count_query (before ++ [n]).
Proof.
  intros Hnames Hnodes Hbefore Hn. unfold verify. cbv zeta. rewrite Hnames, Hnodes.
  destruct (count_loop_stops view node_count_query NodeCount before after n Hbefore Hn)
    as [Hr Hq].
  destruct (count_loop view node_count_query NodeCount (before ++ n :: after)) as [tr1 r1].
  cbn [fst snd] in *. subst r1. cbn [fst snd]. split; [reflexivity|].
  rewrite queries_app. cbn [queries app]. exact Hq.
Qed.

End VerificationFacts.

(** ** The further theorems at the sample database *)

(** In O\'Brien the quote at position 2 follows a backslash. *)
Lemma escaped_quote_follows_backslash_sample :
  String.get 2 (str_replace "O'Brien" "'" "\'") = Some quote
  /\ exists j, 2%nat = S j /\ String.get j (str_replace "O'Brien" "'" "\'") = Some backslash.
Proof.
  split; [reflexivity|].
  exact (@escaped_quote_follows_backslash "O'Brien" 2 eq_refl).
Defined.

Lemma format_val_str_without_quote_sample :
  contains quote "Alice" = false
  /\ @format_val Sample.runtime (VStr "Alice") = "'Alice'".
Proof.
  split; [reflexivity|].
  exact (@format_val_str_without_quote Sample.runtime "Alice" eq_refl).
Defined.

(** The string 42 is not serialized like the number 42. *)
Lemma str_never_reads_as_number_sample :
  unquoted_kind Sample.forty_two = true
  /\ @format_val Sample.runtime (VStr "42") <> format_val Sample.forty_two.
Proof.
  split; [reflexivity|].
  exact (@str_never_reads_as_number Sample.runtime "42" Sample.forty_two eq_refl).
Defined.

(** The string null is not serialized as null. *)
Lemma keywords_only_for_None_and_bool_sample :
  (forall f : @pyfloat Sample.runtime, Sample.text_null <> VFloat f)
  /\ (format_val Sample.text_null = "null" -> Sample.text_null = VNone)
  /\ (format_val Sample.text_null = "true" -> Sample.text_null = VBool true)
  /\ (format_val Sample.text_null = "false" -> Sample.text_null = VBool false).
Proof.
  assert (H : forall f : @pyfloat Sample.runtime, Sample.text_null <> VFloat f)
    by (intros f; discriminate).
  split; [exact H|].
  exact (@keywords_only_for_None_and_bool Sample.runtime Sample.text_null H).
Defined.

(** 1.0 and 1.00 get different literals. *)
Lemma format_val_decimal_injective_sample :
  Finite false 10 (-1) <> Finite false 100 (-2)
  /\ @format_val Sample.runtime (VDecimal (Finite false 10 (-1)))
     <> @format_val Sample.runtime (VDecimal (Finite false 100 (-2))).
Proof.
  assert (H : Finite false 10 (-1) <> Finite false 100 (-2)) by discriminate.
  split; [exact H|].
  exact (@format_val_decimal_injective Sample.runtime false false 10 100 (-1) (-2) H).
Defined.

Lemma format_val_closed_without_backslash_sample :
  (forall f, contains quote (@float_repr Sample.fixed_float_runtime f) = false)
  /\ @backslash_free Sample.fixed_float_runtime (VStr "O'Brien") = true
  /\ closed_literal (@format_val Sample.fixed_float_runtime (VStr "O'Brien")) = true.
Proof.
  assert (H : forall f, contains quote (@float_repr Sample.fixed_float_runtime f) = false)
    by (intros f; reflexivity).
  split; [exact H|]. split; [reflexivity|].
  exact (@format_val_closed_without_backslash Sample.fixed_float_runtime (VStr "O'Brien")
           H eq_refl).
Defined.

(** A BIGINT column maps like an Integer column. *)
Lemma infer_type_of_subclass_sample :
  sqltypes.issubclass sqltypes.BIGINT sqltypes.Integer = true
  /\ infer_type (Column "n" sqltypes.Integer false) <> "STRING"
  /\ infer_type (Column "id" sqltypes.BIGINT true) = infer_type (Column "n" sqltypes.Integer false).
Proof.
  assert (H : infer_type (Column "n" sqltypes.Integer false) <> "STRING") by discriminate.
  split; [reflexivity|]. split; [exact H|].
  exact (@infer_type_of_subclass "id" "n" true false sqltypes.BIGINT sqltypes.Integer eq_refl H).
Defined.

Lemma rel_table_name_injective_sample :
  contains "_" "customers" = false /\ contains "_" "orders" = false
  /\ ("customers", "orders") <> ("orders", "customers")
  /\ rel_table_name "customers" "orders" <> rel_table_name "orders" "customers".
Proof.
  assert (H : ("customers", "orders") <> ("orders", "customers")) by discriminate.
  split; [reflexivity|]. split; [reflexivity|]. split; [exact H|].
  exact (@rel_table_name_injective "customers" "orders" "orders" "customers" eq_refl eq_refl H).
Defined.

Lemma PG_URL_parts_sample :
  PG_URL Sample.environment = PG_URL Sample.reordered_environment
  /\ POSTGRES_USER Sample.environment = POSTGRES_USER Sample.reordered_environment
  /\ POSTGRES_PASSWORD Sample.environment = POSTGRES_PASSWORD Sample.reordered_environment
  /\ POSTGRES_HOST Sample.environment = POSTGRES_HOST Sample.reordered_environment
  /\ POSTGRES_PORT Sample.environment = POSTGRES_PORT Sample.reordered_environment
  /\ POSTGRES_DB Sample.environment = POSTGRES_DB Sample.reordered_environment.
Proof.
  split; [reflexivity|].
  exact (@PG_URL_parts Sample.environment Sample.reordered_environment
           eq_refl eq_refl eq_refl eq_refl eq_refl eq_refl eq_refl eq_refl eq_refl).
Defined.

(** An integer of two digits. *)
Lemma format_val_int_round_trip_sample :
  (str_digits (-42) <= max_str_digits)%nat
  /\ parse_int (@format_val Sample.runtime (VInt (-42))) = Some (-42)%Z.
Proof.
  assert (H : (str_digits (-42) <= max_str_digits)%nat)
    by (apply Nat.leb_le; reflexivity).
  split; [exact H|].
  exact (@format_val_int_round_trip Sample.runtime (-42) H).
Defined.

(** The fifth of June 2021. *)
Lemma format_val_date_layout_sample :
  valid_date Sample.june_fifth = true
  /\ @format_val Sample.runtime (VDate Sample.june_fifth) = "'2021-06-05'"
  /\ exists y m dd : string,
       @format_val Sample.runtime (VDate Sample.june_fifth)
       = "'" ++ y ++ "-" ++ m ++ "-" ++ dd ++ "'"
       /\ fixed_field 4 y = Some 2021%N
       /\ fixed_field 2 m = Some 6%N
       /\ fixed_field 2 dd = Some 5%N.
Proof.
  split; [reflexivity|]. split; [reflexivity|].
  exact (@format_val_date_layout Sample.runtime Sample.june_fifth eq_refl).
Defined.

(** Half past nine on that day, 45 microseconds later, five and a half
    hours behind UTC. *)
Lemma format_val_datetime_layout_sample :
  valid_datetime Sample.half_past_nine = true
  /\ @format_val Sample.runtime (VDatetime Sample.half_past_nine)
     = "'2021-06-05T09:30:00.000045-05:30'"
  /\ exists y m dd hh mm ss frac off : string,
       @format_val Sample.runtime (VDatetime Sample.half_past_nine)
       = "'" ++ y ++ "-" ++ m ++ "-" ++ dd ++ "T" ++ hh ++ ":" ++ mm ++ ":" ++ ss
         ++ frac ++ off ++ "'"
       /\ fixed_field 4 y = Some 2021%N
       /\ fixed_field 2 m = Some 6%N
       /\ fixed_field 2 dd = Some 5%N
       /\ fixed_field 2 hh = Some 9%N
       /\ fixed_field 2 mm = Some 30%N
       /\ fixed_field 2 ss = Some 0%N
       /\ fraction_layout 45 frac
       /\ offset_layout (Some (-19800)%Z) off.
Proof.
  split; [reflexivity|]. split; [reflexivity|].
  exact (@format_val_datetime_layout Sample.runtime Sample.half_past_nine eq_refl).
Defined.

(** Customers and orders on the store that checks names: the run ends
    normally. *)
Lemma migrate_run_end_sample :
  schema_ok Sample.database [Sample.customers; Sample.orders] = true
  /\ first_refused catalog_store []
       (trace (migrate Sample.database [Sample.customers; Sample.orders])) = None
  /\ run_end_on catalog_store (migrate Sample.database [Sample.customers; Sample.orders])
     = EndsNormally.
Proof.
  split; [reflexivity|]. split; [reflexivity|].
  exact (@migrate_run_end _ Sample.database catalog_store
           [Sample.customers; Sample.orders] eq_refl).
Defined.

(** Every sample table with a primary key, on the same store: the run ends
    at the relationship type whose parent was skipped as a node table. *)
Example keyed_tables_refused :
  run_end_on catalog_store (migrate Sample.database Sample.keyed_tables)
  = StoreRefuses (CreateRelTable "order_items_shipments_edge" "order_items" "shipments").
Proof. reflexivity. Qed.


Lemma verify_missing_name_sample :
  existsb lacks_name (rel_table_meta Sample.nameless_view) = true
  /\ snd (verify Sample.nameless_view) = Raised KeyError
  /\ queries (fst (verify Sample.nameless_view)) = [].
Proof.
  split; [reflexivity|].
  destruct (@verify_missing_name _ Sample.nameless_view eq_refl) as [Hv Hq].
  split; [now rewrite Hv|exact Hq].
Defined.

Lemma verify_queries_all_sample :
  rel_names (rel_table_meta Sample.loaded_view) = Done ["customers_orders_edge"]
  /\ snd (verify Sample.loaded_view) = Done tt
  /\ queries (fst (verify Sample.loaded_view))
     = ["MATCH (n:customers) RETURN COUNT(n) AS cnt;";
        "MATCH (n:orders) RETURN COUNT(n) AS cnt;";
        "MATCH ()-[r:customers_orders_edge]->() RETURN COUNT(r) AS cnt;"].
Proof.
  split; [reflexivity|].
  exact (@verify_queries_all _ Sample.loaded_view ["customers_orders_edge"]
           eq_refl eq_refl eq_refl).
Defined.

Lemma verify_stops_at_empty_record_sample :
  node_table_names Sample.stale_view = (["customers"] ++ "ghosts" :: ["orders"])%list
  /\ has_first_value (next_record Sample.stale_view (node_count_query "ghosts")) = false
  /\ snd (verify Sample.stale_view) = Raised IndexError
  /\ queries (fst (verify Sample.stale_view))
     = ["MATCH (n:customers) RETURN COUNT(n) AS cnt;";
        "MATCH (n:ghosts) RETURN COUNT(n) AS cnt;"].
Proof.
  split; [reflexivity|]. split; [reflexivity|].
  exact (@verify_stops_at_empty_record _ Sample.stale_view ["customers_orders_edge"]
           ["customers"] ["orders"] "ghosts" eq_refl eq_refl eq_refl eq_refl).
Defined.
